(** * Workflow execution engine of the pipeline runner ([src/backend/executor.js])

    A shallow embedding of the executor: JavaScript values, the path resolver,
    the template interpolator, the row normaliser, the transform library, the
    HTTP node runner (retry loop and fan-out) and the main [executePipeline]
    loop, with the properties of its specification. *)

From Stdlib Require Import Bool Arith ZArith Lia List String Ascii.
From Stdlib Require Import Floats Sorted Permutation.
Import ListNotations.

#[global] Set Warnings "-inexact-float,-register-all".

Open Scope Z_scope.
Open Scope string_scope.

(** ** JavaScript values *)

(** JSON-shaped JavaScript values; numbers are IEEE-754 binary64 floats
    (Rocq's primitive floats have the semantics of JavaScript numbers).
    An object is the list of its own enumerable properties in property order,
    keys distinct.  Inherited (prototype) members are outside the model. *)
Inductive jsval : Type :=
| JUndefined
| JNull
| JBool (b : bool)
| JNum (f : float)
| JStr (s : string)
| JArr (elems : list jsval)
| JObj (props : list (string * jsval)).

(** The operations of the JavaScript host and of the [jsonpath-plus] library
    that the executor calls but that are not code of this repository.  Every
    theorem below holds for every host. *)
Record Host : Type := {
  (** ECMA-262 StringToNumber (numeric literals, with correct rounding). *)
  StringToNumber : string -> float;
  (** ECMA-262 Number::toString on values that are not safe integers (the
      standard fixes their digits only up to the last one). *)
  NumberToString_fraction : float -> string;
  (** [JSONPath({path, json})]: [None] when the library throws. *)
  JSONPath_wrapped : string -> jsval -> option jsval;
  (** [JSONPath({path, json, wrap: false})]: [None] when the library throws. *)
  JSONPath_unwrapped : string -> jsval -> option jsval
}.

(** *** Numbers *)

Definition float_of_Z (z : Z) : float :=
  SF2Prim (binary_normalize prec emax z 0 false).

Definition float_of_nat (n : nat) : float := float_of_Z (Z.of_nat n).

(** The integer a float denotes, when it is an integer of magnitude below 2^53
    (a safe integer; [-0] gives [0]). *)
Definition safe_integer (f : float) : option Z :=
  match Prim2SF f with
  | S754_zero _ => Some 0
  | S754_finite s m e =>
      let z :=
        if Z.leb 0 e then Some (Z.shiftl (Zpos m) e)
        else if Z.eqb (Z.land (Zpos m) (Z.ones (- e))) 0
             then Some (Z.shiftr (Zpos m) (- e)) else None in
      match z with
      | Some z => if Z.ltb z (2 ^ 53) then Some (if s then - z else z) else None
      | None => None
      end
  | _ => None
  end.

Fixpoint uint_to_string (d : Decimal.uint) : string :=
  match d with
  | Decimal.Nil => ""
  | Decimal.D0 d => String "0" (uint_to_string d)
  | Decimal.D1 d => String "1" (uint_to_string d)
  | Decimal.D2 d => String "2" (uint_to_string d)
  | Decimal.D3 d => String "3" (uint_to_string d)
  | Decimal.D4 d => String "4" (uint_to_string d)
  | Decimal.D5 d => String "5" (uint_to_string d)
  | Decimal.D6 d => String "6" (uint_to_string d)
  | Decimal.D7 d => String "7" (uint_to_string d)
  | Decimal.D8 d => String "8" (uint_to_string d)
  | Decimal.D9 d => String "9" (uint_to_string d)
  end.

Definition Z_to_decimal (z : Z) : string :=
  match Z.to_int z with
  | Decimal.Pos d => uint_to_string d
  | Decimal.Neg d => String "-" (uint_to_string d)
  end.

Section HostOps.
Context (h : Host).

(** Number::toString: NaN, the infinities and safe integers are fixed by the
    standard; the digits of other values come from the host. *)
Definition number_to_string (f : float) : string :=
  if is_nan f then "NaN"
  else if (f =? infinity)%float then "Infinity"
  else if (f =? neg_infinity)%float then "-Infinity"
  else match safe_integer f with
       | Some z => Z_to_decimal z
       | None => NumberToString_fraction h f
       end.

Fixpoint join_strings (sep : string) (l : list string) : string :=
  match l with
  | [] => ""
  | [s] => s
  | s :: rest => (s ++ sep ++ join_strings sep rest)%string
  end.

(** [String(v)] (ToString); an array is joined with [","], its [null] and
    [undefined] elements printing as the empty string. *)
Fixpoint js_string (v : jsval) : string :=
  match v with
  | JUndefined => "undefined"
  | JNull => "null"
  | JBool true => "true"
  | JBool false => "false"
  | JNum f => number_to_string f
  | JStr s => s
  | JArr l =>
      join_strings ","
        (map (fun e => match e with
                       | JUndefined | JNull => ""
                       | _ => js_string e
                       end) l)
  | JObj _ => "[object Object]"
  end.

(** [Number(v)] (ToNumber); arrays and objects go through their string form. *)
Definition js_number (v : jsval) : float :=
  match v with
  | JUndefined => nan
  | JNull => 0%float
  | JBool true => 1%float
  | JBool false => 0%float
  | JNum f => f
  | JStr s => StringToNumber h s
  | JArr _ | JObj _ => StringToNumber h (js_string v)
  end.

End HostOps.

(** JavaScript truthiness. *)
Definition truthy (v : jsval) : bool :=
  match v with
  | JUndefined | JNull => false
  | JBool b => b
  | JNum f => negb (is_nan f || (f =? 0)%float)
  | JStr s => negb (String.eqb s "")
  | JArr _ | JObj _ => true
  end.

(** [v == null]. *)
Definition is_nullish (v : jsval) : bool :=
  match v with JUndefined | JNull => true | _ => false end.

Definition is_array (v : jsval) : bool :=
  match v with JArr _ => true | _ => false end.

(** [isObj(v)]: a truthy non-array object. *)
Definition isObj (v : jsval) : bool :=
  match v with JObj _ => true | _ => false end.

(** ** Transform library *)

Section Correlation.
Context (h : Host).

(** [Array.isArray(xs) ? xs.map(Number).filter(n => !isNaN(n)) : []] *)
Definition numeric_series (xs : jsval) : list float :=
  match xs with
  | JArr l => filter (fun f => negb (is_nan f)) (map (js_number h) l)
  | _ => []
  end.

(** [mean = (a) => a.reduce((s, x) => s + x, 0) / n] *)
Definition mean (n : nat) (a : list float) : float :=
  (fold_left (fun s x => s + x) a 0 / float_of_nat n)%float.

(** The loop [for (i = 0; i < n; i++)] accumulating [num], [dx], [dy]. *)
Fixpoint corr_sums (mx my : float) (X Y : list float) (num dx dy : float)
  : float * float * float :=
  match X, Y with
  | x :: X', y :: Y' =>
      let vx := (x - mx)%float in
      let vy := (y - my)%float in
      corr_sums mx my X' Y' (num + vx * vy) (dx + vx * vx) (dy + vy * vy)
  | _, _ => (num, dx, dy)
  end.

(** The body of [t_correlation] once the two series are filtered. *)
Definition pearson (X Y : list float) : float :=
  let n := Nat.min (List.length X) (List.length Y) in
  if Nat.ltb n 2 then 0%float
  else
    let mx := mean n (firstn n X) in
    let my := mean n (firstn n Y) in
    let '(num, dx, dy) := corr_sums mx my (firstn n X) (firstn n Y) 0 0 0 in
    let den := sqrt (dx * dy) in
    if (1e-6 <? den)%float then (num / den)%float else 0%float.

(** [t_correlation(xs, ys)]: each series is filtered on its own, then both are
    truncated to their common length. *)
Definition t_correlation (xs ys : jsval) : float :=
  pearson (numeric_series xs) (numeric_series ys).

(** Following the spec's words (pair, then filter): the Pearson coefficient of
    the pairs [(xs[i], ys[i])] whose two members are numeric. *)
Definition correlation_aligned (xs ys : jsval) : float :=
  match xs, ys with
  | JArr a, JArr b =>
      let pairs :=
        filter (fun p => negb (is_nan (fst p)) && negb (is_nan (snd p)))
          (combine (map (js_number h) a) (map (js_number h) b)) in
      pearson (map fst pairs) (map snd pairs)
  | _, _ => 0%float
  end.

End Correlation.

(** A host for the concrete checks: they use no string conversion, print only
    safe integers, and evaluate no JSONPath expression. *)
Definition host0 : Host := {|
  StringToNumber := fun _ => nan;
  NumberToString_fraction := fun _ => "";
  JSONPath_wrapped := fun _ _ => None;
  JSONPath_unwrapped := fun _ _ => None
|}.

(** Inputs of the concrete checks on [t_correlation]. *)
Definition corr_xs_gap : jsval := JArr [JUndefined; JNum 1; JNum 2; JNum 3].
Definition corr_ys_gap : jsval := JArr [JNum 5; JNum 1; JNum 2; JUndefined].

(** ** Property access *)

Definition digit_value (c : ascii) : option nat :=
  let n := nat_of_ascii c in
  if (48 <=? n)%nat && (n <=? 57)%nat then Some (n - 48)%nat else None.

Fixpoint digits_value (s : string) (acc : nat) : option nat :=
  match s with
  | EmptyString => Some acc
  | String c rest =>
      match digit_value c with
      | Some d => digits_value rest (acc * 10 + d)
      | None => None
      end
  end.

(** An array index key: ["0"] or a decimal numeral without leading zero. *)
Definition array_index (k : string) : option nat :=
  match k with
  | String "0" EmptyString => Some 0%nat
  | String "0" _ => None
  | EmptyString => None
  | _ => digits_value k 0
  end.

(** [v[k]] on own properties: object members, array elements and [length],
    string characters and [length]; anything else reads [undefined]. *)
Definition js_get (v : jsval) (k : string) : jsval :=
  match v with
  | JObj ps =>
      match find (fun kv => String.eqb (fst kv) k) ps with
      | Some (_, x) => x
      | None => JUndefined
      end
  | JArr l =>
      if String.eqb k "length" then JNum (float_of_nat (List.length l))
      else match array_index k with
           | Some i => nth i l JUndefined
           | None => JUndefined
           end
  | JStr s =>
      if String.eqb k "length" then JNum (float_of_nat (String.length s))
      else match array_index k with
           | Some i =>
               match String.get i s with
               | Some c => JStr (String c EmptyString)
               | None => JUndefined
               end
           | None => JUndefined
           end
  | _ => JUndefined
  end.

(** [o[k] = x] on an object: replaces the member in place or appends it. *)
Fixpoint set_prop (ps : list (string * jsval)) (k : string) (x : jsval)
  : list (string * jsval) :=
  match ps with
  | [] => [(k, x)]
  | (k', y) :: rest =>
      if String.eqb k' k then (k, x) :: rest else (k', y) :: set_prop rest k x
  end.

(** [obj[k] = x] on an ordinary object: the key ["__proto__"] goes to the
    inherited accessor (it sets the prototype, or does nothing) and creates no
    own member; any other key is replaced in place or appended. *)
Definition put_member (ps : list (string * jsval)) (k : string) (x : jsval)
  : list (string * jsval) :=
  if String.eqb k "__proto__" then ps else set_prop ps k x.

(** ** Row normaliser *)

Definition column_length (v : jsval) : nat :=
  match v with JArr l => List.length l | _ => 0%nat end.

(** The [i]-th row of a columnar object:
    [const row = {}; for (const k of keys) row[k] = input[k][i];], a key
    ["__proto__"] creating no own member ([put_member]). *)
Definition columnar_row (ps : list (string * jsval)) (i : nat) : jsval :=
  JObj (fold_left (fun row kv => put_member row (fst kv)
                                   (match snd kv with
                                    | JArr l => nth i l JUndefined
                                    | _ => JUndefined
                                    end)) ps []).

(** [asRows(input)]. *)
Definition asRows (input : jsval) : list jsval :=
  match input with
  | JArr l => l
  | JObj ps =>
      if forallb (fun kv => is_array (snd kv)) ps then
        match ps with
        | [] => []
        | (_, first) :: _ =>
            let len := column_length first in
            if forallb (fun kv => Nat.eqb (column_length (snd kv)) len) ps then
              map (columnar_row ps) (seq 0 len)
            else
              let minLen := fold_left (fun m kv => Nat.min m (column_length (snd kv)))
                              ps len in
              map (columnar_row ps) (seq 0 minLen)
        end
      else []
  | _ => []
  end.

(** ** Ranking *)

(** ToIntegerOrInfinity. *)
Inductive Zinf : Type := NegInf | Fin (z : Z) | PosInf.

Definition to_integer_or_infinity (f : float) : Zinf :=
  match Prim2SF f with
  | S754_nan | S754_zero _ => Fin 0
  | S754_infinity s => if s then NegInf else PosInf
  | S754_finite s m e =>
      let z := if Z.leb 0 e then Z.shiftl (Zpos m) e else Z.shiftr (Zpos m) (- e) in
      Fin (if s then - z else z)
  end.

(** [l.slice(0, end)]. *)
Definition js_slice_to (h : Host) (l : list jsval) (end_ : jsval) : list jsval :=
  let len := Z.of_nat (List.length l) in
  let final :=
    match to_integer_or_infinity (js_number h end_) with
    | NegInf => 0
    | PosInf => len
    | Fin r => if Z.ltb r 0 then Z.max (len + r) 0 else Z.min r len
    end in
  firstn (Z.to_nat final) l.

(** [Array.prototype.sort] with a comparator, on the elements other than
    [undefined]: a stable sort in which [x] is placed after [y] exactly when
    [comparefn(y, x) > 0] (a [NaN] result counts as [+0]).  For a consistent
    comparator the standard fixes the result, whatever algorithm the engine
    uses; insertion sort computes it. *)
Fixpoint insert_by (cmp : jsval -> jsval -> float) (x : jsval) (l : list jsval)
  : list jsval :=
  match l with
  | [] => [x]
  | y :: l' => if (0 <? cmp y x)%float then x :: l else y :: insert_by cmp x l'
  end.

Definition sort_by (cmp : jsval -> jsval -> float) (l : list jsval) : list jsval :=
  fold_left (fun acc x => insert_by cmp x acc) l [].

Definition is_undefined (v : jsval) : bool :=
  match v with JUndefined => true | _ => false end.

(** [Array.prototype.sort(comparefn)]: SortCompare never passes [undefined]
    to [comparefn] and orders it after every other value, so the
    [undefined] elements come last, after the others sorted by [comparefn]. *)
Definition js_sort (cmp : jsval -> jsval -> float) (l : list jsval) : list jsval :=
  app (sort_by cmp (filter (fun x => negb (is_undefined x)) l)) (filter is_undefined l).

Section Ranking.
Context (h : Host).

(** [Number(row?.[by]) || 0] *)
Definition sort_key (by_ : string) (row : jsval) : float :=
  let v := js_number h (js_get row by_) in
  if truthy (JNum v) then v else 0%float.

(** The comparator of [t_top_n]. *)
Definition top_n_compare (by_ : string) (desc : bool) (a b : jsval) : float :=
  let valA := sort_key by_ a in
  let valB := sort_key by_ b in
  if desc then (valB - valA)%float else (valA - valB)%float.

(** [t_top_n(arr, {n, by, desc})] *)
Definition t_top_n (arr : jsval) (n : jsval) (by_ : string) (desc : bool)
  : list jsval :=
  let rows := asRows arr in
  let s := js_sort (top_n_compare by_ desc) rows in
  js_slice_to h s n.

End Ranking.

(** ** Order of binary64 values *)






(** ** Templates *)

(** ASCII white space, as matched by [\s] and removed by [trim]. *)
Definition is_ws (c : ascii) : bool :=
  (c =? " ")%char || (c =? "009")%char || (c =? "010")%char ||
  (c =? "011")%char || (c =? "012")%char || (c =? "013")%char.

(** The longest prefix whose characters satisfy [p], and the rest. *)
Fixpoint span (p : ascii -> bool) (s : string) : string * string :=
  match s with
  | EmptyString => (EmptyString, EmptyString)
  | String c r =>
      if p c then let '(a, b) := span p r in (String c a, b)
      else (EmptyString, s)
  end.

Fixpoint all_chars (p : ascii -> bool) (s : string) : bool :=
  match s with
  | EmptyString => true
  | String c r => p c && all_chars p r
  end.

Fixpoint strip_prefix (pre s : string) : option string :=
  match pre, s with
  | EmptyString, _ => Some s
  | String c pr, String d r => if (c =? d)%char then strip_prefix pr r else None
  | String _ _, EmptyString => None
  end.

Definition starts_with (pre s : string) : bool :=
  match strip_prefix pre s with Some _ => true | None => false end.

Fixpoint last_char (s : string) : option ascii :=
  match s with
  | EmptyString => None
  | String c EmptyString => Some c
  | String _ r => last_char r
  end.

Definition is_empty (s : string) : bool := String.eqb s "".

Fixpoint trim_start (s : string) : string :=
  match s with
  | String c r => if is_ws c then trim_start r else s
  | EmptyString => EmptyString
  end.

Fixpoint trim_end (s : string) : string :=
  match s with
  | EmptyString => EmptyString
  | String c r =>
      let r' := trim_end r in
      if is_empty r' && is_ws c then EmptyString else String c r'
  end.

(** [s.trim()] *)
Definition trim (s : string) : string := trim_end (trim_start s).

(** [s.split(sep)] for a one-character separator. *)
Fixpoint split_on (sep : ascii) (s : string) : list string :=
  match s with
  | EmptyString => [EmptyString]
  | String c r =>
      if (c =? sep)%char then EmptyString :: split_on sep r
      else match split_on sep r with
           | [] => [String c EmptyString]
           | w :: ws => String c w :: ws
           end
  end.

(** One match of [/\{\{([^}]+)\}\}/] at the start of [s]: the captured code
    and the text after the match.  The group is the maximal run of
    characters other than ["}"], so no other split of it can match. *)
Definition placeholder_at (s : string) : option (string * string) :=
  match s with
  | String "{" (String "{" r) =>
      let '(code, r1) := span (fun c => negb (c =? "}")%char) r in
      if is_empty code then None
      else match r1 with
           | String "}" (String "}" r2) => Some (code, r2)
           | _ => None
           end
  | _ => None
  end.

(** [s.replace(/\{\{([^}]+)\}\}/g, f)]: matches are found left to right; a
    callback that throws ([None]) aborts the whole call.  Each step consumes
    at least one character, so [String.length s + 1] steps suffice. *)
Fixpoint replace_placeholders (fuel : nat) (f : string -> option string) (s : string)
  : option string :=
  match fuel with
  | O => Some s
  | S fuel' =>
      match s with
      | EmptyString => Some EmptyString
      | String c r =>
          match placeholder_at s with
          | Some (code, rest) =>
              match f code, replace_placeholders fuel' f rest with
              | Some v, Some w => Some (v ++ w)
              | _, _ => None
              end
          | None =>
              match replace_placeholders fuel' f r with
              | Some w => Some (String c w)
              | None => None
              end
          end
      end
  end.

(** [call.match(/^join_coords\(([^,]+),\s*([^)]+)\)\s*$/)]: the two groups.
    The greedy [\s*] gives back its last character to the second group only
    when no other character stands before the closing parenthesis. *)
Definition match_join (call : string) : option (string * string) :=
  match strip_prefix "join_coords(" call with
  | None => None
  | Some r =>
      let '(g1, r1) := span (fun c => negb (c =? ",")%char) r in
      if is_empty g1 then None
      else match r1 with
           | String "," r2 =>
               let '(w, g) := span is_ws r2 in
               let '(g2, r3) := span (fun c => negb (c =? ")")%char) g in
               let close grp rest :=
                 match rest with
                 | String ")" r4 => if all_chars is_ws r4 then Some (g1, grp) else None
                 | _ => None
                 end in
               if negb (is_empty g2) then close g2 r3
               else match last_char w with
                    | Some c => close (String c EmptyString) g
                    | None => None
                    end
           | _ => None
           end
  end.

Section Interpolation.
Context (h : Host).

(** The dotted walk of [resolvePathLike]. *)
Fixpoint walk_path (cur : jsval) (parts : list string) : jsval :=
  match parts with
  | [] => cur
  | p :: ps => if is_nullish cur then JUndefined else walk_path (js_get cur p) ps
  end.

(** [resolvePathLike(scope, expr)] for a string [expr]; a throwing JSONPath
    query reads [undefined]. *)
Definition resolvePathLike (scope : jsval) (expr : string) : jsval :=
  if starts_with "$." expr || starts_with "$[" expr then
    match JSONPath_wrapped h expr scope with
    | Some v => v
    | None => JUndefined
    end
  else walk_path scope (split_on "." expr).

(** [originCoords] of the [join_coords] branch; [None] when reading
    [scope._origin] throws. *)
Definition origin_coords (scope : jsval) : option string :=
  if is_nullish scope then None
  else
    let o := js_get scope "_origin" in
    if truthy o && negb (is_nullish (js_get o "lon")) && negb (is_nullish (js_get o "lat"))
    then Some (js_string h (js_get o "lon") ++ "," ++ js_string h (js_get o "lat"))
    else
      let ctx := js_get scope "context" in
      let origin := if is_nullish ctx then JUndefined else js_get ctx "origin" in
      if truthy origin then
        match split_on "," (js_string h origin) with
        | lat :: lon :: _ =>
            if negb (is_empty lat) && negb (is_empty lon)
            then Some (trim lon ++ "," ++ trim lat)
            else Some ""
        | _ => Some ""
        end
      else Some "".

(** The destination pairs: index by index up to the shorter length, skipping
    an index where either value is [null] or [undefined]. *)
Fixpoint coord_pairs (lats lons : list jsval) : list string :=
  match lats, lons with
  | lat :: lats', lon :: lons' =>
      app (if is_nullish lon || is_nullish lat then []
           else [js_string h lon ++ "," ++ js_string h lat])
          (coord_pairs lats' lons')
  | _, _ => []
  end.

Definition array_elems (v : jsval) : list jsval :=
  match v with JArr l => l | _ => [] end.

(** The replacement callback of [interpolate]. *)
Definition interpolate_code (scope : jsval) (code : string) : option string :=
  let call := trim code in
  match match_join call with
  | Some (g1, g2) =>
      let lats := resolvePathLike scope (trim g1) in
      let lons := resolvePathLike scope (trim g2) in
      if is_array lats && is_array lons then
        match origin_coords scope with
        | None => None
        | Some originCoords =>
            let pairs := app (if is_empty originCoords then [] else [originCoords])
                             (coord_pairs (array_elems lats) (array_elems lons)) in
            Some (join_strings ";" pairs)
        end
      else Some ""
  | None =>
      let val := resolvePathLike scope call in
      Some (if is_nullish val then "" else js_string h val)
  end.

(** [interpolate(template, scope)] for a string template. *)
Definition interpolate (template : string) (scope : jsval) : option string :=
  replace_placeholders (S (String.length template)) (interpolate_code scope) template.

End Interpolation.

(** The scope of the interpolation example. *)
Definition interp_scope : jsval :=
  JObj [("outputs", JObj [("a", JObj [("lat", JArr [JNum 1; JNum 2]);
                                      ("lon", JArr [JNum 10; JNum 20])])]);
        ("_origin", JObj [("lat", JNum 0); ("lon", JNum 0)])].

(** Characters of a path argument of [join_coords] in the checks below: no
    white space, comma, closing parenthesis or closing brace. *)
Definition path_char (c : ascii) : bool :=
  negb (is_ws c || (c =? ",")%char || (c =? ")")%char || (c =? "}")%char).

Definition path_string (s : string) : bool := negb (is_empty s) && all_chars path_char s.

(** ** Engine *)

(** *** JavaScript operators used by the engine *)

(** [v === s] for a string literal [s]. *)
Definition is_str (v : jsval) (s : string) : bool :=
  match v with JStr t => String.eqb t s | _ => false end.

(** [a ?? b]. *)
Definition coalesce (a b : jsval) : jsval := if is_nullish a then b else a.

(** [a || b]. *)
Definition js_or (a b : jsval) : jsval := if truthy a then a else b.

(** [v?.[k]]. *)
Definition opt_get (v : jsval) (k : string) : jsval :=
  if is_nullish v then JUndefined else js_get v k.

(** [a <= t] where [a] is a number holding the integer [a]: an integer
    counter far below 2^53 is exact, so the comparison of the two doubles is
    the comparison of their exact values. *)
Definition int_le_num (a : Z) (t : float) : bool :=
  match Prim2SF t with
  | S754_nan => false
  | S754_infinity s => negb s
  | S754_zero _ => Z.leb a 0
  | S754_finite s m e =>
      if Z.leb 0 e then Z.leb a (cond_Zopp s (Zpos m) * 2 ^ e)
      else Z.leb (a * 2 ^ (- e)) (cond_Zopp s (Zpos m))
  end.

(** [t < a], same conventions. *)
Definition int_gt_num (a : Z) (t : float) : bool :=
  match Prim2SF t with
  | S754_nan => false
  | S754_infinity s => s
  | S754_zero _ => Z.ltb 0 a
  | S754_finite s m e =>
      if Z.leb 0 e then Z.ltb (cond_Zopp s (Zpos m) * 2 ^ e) a
      else Z.ltb (cond_Zopp s (Zpos m)) (a * 2 ^ (- e))
  end.

(** [Math.pow(2, k)] for an integer [k >= 0]. *)
Definition pow2 (k : Z) : float := float_of_Z (2 ^ k).

Section EngineOps.
Context (h : Host).

(** [resolvePathLike(scope, expr)] on any value: a non-string [expr] is
    returned as it is. *)
Definition resolvePathLike_v (scope expr : jsval) : jsval :=
  match expr with JStr s => resolvePathLike h scope s | _ => expr end.

End EngineOps.

(** *** [runHttpNode] *)

(** One [axios(config)] request of a live attempt: a 2xx response (its data
    already passed through [applyMap]) or the thrown error, by its message
    ([axios] errors always carry a non-empty one). *)
Inductive send_result : Type :=
| SendOk (data : jsval)
| SendErr (message : string).

(** What [runHttpNode] resolves to, or the message of what it throws. *)
Inductive call_result : Type :=
| Fulfilled (data : jsval) (attempts : Z) (fallbackUsed : bool)
| Rejected (message : string).

(** The [while (attempts <= maxRetries)] loop of the live mode.  [send n] is
    the outcome of the request of attempt [n]; every [sleep] is recorded in
    [delays], in order.  [fuel] bounds the number of rounds ([None] when it
    runs out). *)
Fixpoint http_attempts (fuel : nat) (attempts : nat) (maxRetries backoff : float)
    (fallback : bool) (id : string) (send : nat -> send_result)
    (delays : list float) : option (list float * call_result) :=
  match fuel with
  | O => None
  | S fuel' =>
      if int_le_num (Z.of_nat attempts) maxRetries then
        let attempts := S attempts in
        match send attempts with
        | SendOk d => Some (delays, Fulfilled d (Z.of_nat attempts) false)
        | SendErr msg =>
            if int_gt_num (Z.of_nat attempts) maxRetries then
              if fallback then
                Some (delays, Rejected ("Node " ++ id ++ " failed after "
                                        ++ Z_to_decimal (Z.of_nat attempts)
                                        ++ " attempts: " ++ msg))
              else Some (delays, Rejected msg)
            else
              http_attempts fuel' attempts maxRetries backoff fallback id send
                (app delays [(backoff * pow2 (Z.of_nat attempts - 1))%float])
        end
      else Some (delays, Rejected ("Node " ++ id ++ " failed unexpectedly after all retries."))
  end.

(** [runHttpNode(node, scope, useMocks, spec)]; [mock] is [mockFor(node)]
    (random data) and [send] the live requests, built from [scope]. *)
Definition runHttpNode (h : Host) (fuel : nat) (useMocks : bool) (mock : jsval)
    (node : jsval) (send : nat -> send_result) : option (list float * call_result) :=
  if useMocks then Some ([], Fulfilled mock 1 false)
  else
    let retry := js_get node "retry" in
    let maxRetries := js_number h (coalesce (opt_get retry "times") (JNum 0)) in
    let backoff := js_number h (coalesce (opt_get retry "backoff_ms") (JNum 100)) in
    http_attempts fuel 0 maxRetries backoff (truthy (js_get node "fallback"))
      (js_string h (js_get node "id")) send [].

(** *** Fan-out *)

(** [a < t], same conventions as [int_le_num]. *)
Definition int_lt_num (a : Z) (t : float) : bool :=
  match Prim2SF t with
  | S754_nan => false
  | S754_infinity s => negb s
  | S754_zero _ => Z.ltb a 0
  | S754_finite s m e =>
      if Z.leb 0 e then Z.ltb a (cond_Zopp s (Zpos m) * 2 ^ e)
      else Z.ltb (a * 2 ^ (- e)) (cond_Zopp s (Zpos m))
  end.

Definition is_neg_zero (f : float) : bool :=
  match Prim2SF f with S754_zero true => true | _ => false end.

(** [Math.min(a, b)]. *)
Definition js_min (a b : float) : float :=
  if is_nan a || is_nan b then nan
  else if (a <? b)%float then a
  else if (b <? a)%float then b
  else if is_neg_zero a then a else b.

(** [Math.max(a, b)]. *)
Definition js_max (a b : float) : float :=
  if is_nan a || is_nan b then nan
  else if (b <? a)%float then a
  else if (a <? b)%float then b
  else if is_neg_zero a then b else a.

(** [new Array(len).fill(null)]; [None] for the [RangeError] of a length
    that is not an integer in [0, 2^32). *)
Definition new_array_null (len : float) : option (list jsval) :=
  match safe_integer len with
  | Some n => if Z.leb 0 n && Z.ltb n (2 ^ 32) then Some (repeat JNull (Z.to_nat n)) else None
  | None => None
  end.

(** [arr[j] = x]: in place below the length, else the array grows (holes read
    [undefined]). *)
Fixpoint list_store (l : list jsval) (j : nat) (x : jsval) : list jsval :=
  match l, j with
  | [], O => [x]
  | [], S j' => JUndefined :: list_store [] j' x
  | _ :: rest, O => x :: rest
  | y :: rest, S j' => y :: list_store rest j' x
  end.

(** [Object.entries(v)] (own enumerable string-keyed members). *)
Definition entries (v : jsval) : list (string * jsval) :=
  match v with
  | JObj ps => ps
  | JArr l => combine (map (fun i => Z_to_decimal (Z.of_nat i)) (seq 0 (List.length l))) l
  | JStr s => combine (map (fun i => Z_to_decimal (Z.of_nat i)) (seq 0 (String.length s)))
                      (map (fun c => JStr (String c EmptyString)) (list_ascii_of_string s))
  | _ => []
  end.

(** The indices [j] of [for (let j = 0; j < cap; j++)]; [fuel] bounds the
    rounds (the length of the collection plus one suffices, [cap] being at
    most that length). *)
Fixpoint fanout_indices (fuel j : nat) (cap : float) : list nat :=
  match fuel with
  | O => []
  | S fuel' =>
      if int_lt_num (Z.of_nat j) cap then j :: fanout_indices fuel' (S j) cap else []
  end.

(** The [merged] columns, as an association list from key to column. *)
Definition columns := list (string * list jsval).

Fixpoint col_find (m : columns) (k : string) : option (list jsval) :=
  match m with
  | [] => None
  | (k', c) :: rest => if String.eqb k' k then Some c else col_find rest k
  end.

Fixpoint col_set (m : columns) (k : string) (c : list jsval) : columns :=
  match m with
  | [] => [(k, c)]
  | (k', c') :: rest => if String.eqb k' k then (k, c) :: rest else (k', c') :: col_set rest k c
  end.

(** [if (!merged[k]) merged[k] = new Array(cap).fill(null); merged[k][j] = x]. *)
Definition put_column (cap : float) (m : columns) (k : string) (j : nat) (x : jsval)
  : option columns :=
  match col_find m k with
  | Some c => Some (col_set m k (list_store c j x))
  | None =>
      match new_array_null cap with
      | Some c => Some (col_set m k (list_store c j x))
      | None => None
      end
  end.

Fixpoint put_columns (cap : float) (m : columns) (kvs : list (string * jsval)) (j : nat)
  : option columns :=
  match kvs with
  | [] => Some m
  | (k, x) :: rest =>
      match put_column cap m k j x with
      | Some m' => put_columns cap m' rest j
      | None => None
      end
  end.

Section FanOut.
Context (h : Host).

(** [(node.retry?.times ?? 0) + 1]: [+] concatenates when an operand is a
    string (or an object, converted to one). *)
Definition js_plus_one (v : jsval) : jsval :=
  match v with
  | JStr _ | JArr _ | JObj _ => JStr (js_string h v ++ "1")
  | _ => JNum (js_number h v + 1)%float
  end.

(** The merge loop over [settled], from index [j]: the error entries it
    pushes (in order), then the merged columns, [maxAttempts] and
    [anyFallback], or [None] when [new Array(cap)] throws. *)
Fixpoint merge_settled (node : jsval) (cap : float) (j : nat) (settled : list call_result)
    (merged : columns) (maxAttempts : float) (anyFallback : bool)
  : list (jsval * string) * option (columns * float * bool) :=
  match settled with
  | [] => ([], Some (merged, maxAttempts, anyFallback))
  | Fulfilled r callAttempts callFallback :: rest =>
      let maxAttempts := js_max maxAttempts (float_of_Z callAttempts) in
      let anyFallback := anyFallback || callFallback in
      let cells := map (fun kv => (fst kv, match snd kv with
                                           | JArr l => nth 0 l JUndefined
                                           | v => v
                                           end)) (entries (js_or r (JObj []))) in
      match put_columns cap merged cells j with
      | Some merged => merge_settled node cap (S j) rest merged maxAttempts anyFallback
      | None => ([], None)
      end
  | Rejected msg :: rest =>
      let e := (JStr (js_string h (js_get node "id") ++ "[" ++ Z_to_decimal (Z.of_nat j) ++ "]"), msg) in
      let maxAttempts :=
        js_max maxAttempts
          (js_number h (js_plus_one (coalesce (opt_get (js_get node "retry") "times") (JNum 0)))) in
      let keys := map fst (entries (js_or (js_get node "map") (JObj []))) in
      match put_columns cap merged (map (fun k => (k, JNull)) keys) j with
      | Some merged =>
          let '(errs, res) := merge_settled node cap (S j) rest merged maxAttempts anyFallback in
          (e :: errs, res)
      | None => ([e], None)
      end
  end.

(** [subScope] of fan-out position [j]. *)
Definition sub_scope (scope mapping item : jsval) : jsval :=
  JObj (fold_left (fun ps kv => set_prop ps (fst kv) (opt_get item (js_string h (snd kv))))
          (entries mapping)
          [("outputs", js_get scope "outputs"); ("context", js_get scope "context");
           ("_origin", js_get scope "_origin")]).

(** The fan-out branch of an HTTP node: [call s] is what [runHttpNode]
    settles to on the sub-scope [s].  Returns the calls' scopes in dispatch
    order, the error entries pushed, and the node's data, attempts and
    fallback flag ([None] when the merge throws). *)
Definition fanout_run (call : jsval -> call_result) (node scope : jsval)
  : list jsval * list (jsval * string) * option (jsval * float * bool) :=
  let fanout := js_get node "fanout" in
  let baseArr := asRows (js_or (resolvePathLike_v h scope (js_get fanout "over")) (JArr [])) in
  let L := List.length baseArr in
  let cap := js_min (js_number h (js_or (js_get fanout "max") (JNum (float_of_nat L))))
                    (float_of_nat L) in
  let mapping := js_or (js_get fanout "mapping") (JObj []) in
  let scopes := map (fun j => sub_scope scope mapping (nth j baseArr JUndefined))
                    (fanout_indices (S L) 0 cap) in
  let '(errs, res) := merge_settled node cap 0 (map call scopes) [] 1 false in
  (scopes, errs,
   match res with
   | Some (merged, a, fb) => Some (JObj (map (fun kc => (fst kc, JArr (snd kc))) merged), a, fb)
   | None => None
   end).

End FanOut.

(** *** [runTransformNode] *)

(** A value or the message of a thrown error. *)
Inductive outcome : Type :=
| Done (v : jsval)
| Throws (message : string).

(** The environment of a run: the host, [runHttpNode] as it settles on a
    node and a scope (network, mocks and timers), and the row transforms
    [join_on_index], [compute_osm_quality] and [compute_score] as
    [runTransformNode] applies them to a node and the outputs object. *)
Record Env : Type := {
  env_host : Host;
  http_call : jsval -> jsval -> call_result;
  row_transform : string -> jsval -> list (string * jsval) -> outcome
}.

(** [runTransformNode(node, outputs)]. *)
Definition runTransformNode (env : Env) (node : jsval) (outputs : list (string * jsval))
  : outcome :=
  let h := env_host env in
  let fn := js_get node "fn" in
  let args := js_get node "args" in
  let rp e := resolvePathLike_v h (JObj [("outputs", JObj outputs)]) e in
  if is_str fn "join_on_index" then row_transform env "join_on_index" node outputs
  else if is_str fn "compute_osm_quality" then row_transform env "compute_osm_quality" node outputs
  else if is_str fn "compute_score" then row_transform env "compute_score" node outputs
  else if is_str fn "top_n" then
    Done (JArr (t_top_n h (coalesce (rp (js_or (opt_get args "from") (JStr "outputs.t2_score"))) (JArr []))
                  (coalesce (opt_get args "n") (JNum 5))
                  (js_string h (js_or (opt_get args "by") (JStr "score")))
                  (negb (match opt_get args "desc" with JBool false => true | _ => false end))))
  else if is_str fn "correlation" then
    Done (JNum (t_correlation h (rp (opt_get args "xFrom")) (rp (opt_get args "yFrom"))))
  else
    (* console.warn(`Unknown function ${fn}, returning input.`) *)
    Done (coalesce (rp (opt_get args "from")) JNull).

(** *** [executePipeline] *)

(** A [runLog] entry. *)
Inductive log_entry : Type :=
| LogOk (node_id : jsval) (attempts : float) (fallback_used : bool)
| LogError (node_id : jsval) (attempts : float) (error : string).

(** The state of a run: the nodes' [status] fields, every write to one of
    them (node index and value, in order), the [outputs] object, [errors],
    [runLog], the published events (name and [nodeId]) and [apiCalls].
    Edge statuses, latencies and timings are not modelled: they are written
    alongside and never read back. *)
Record RunState : Type := {
  rs_status : list string;
  rs_trace : list (nat * string);
  rs_outputs : list (string * jsval);
  rs_errors : list (jsval * string);
  rs_log : list log_entry;
  rs_events : list (string * jsval);
  rs_apiCalls : nat
}.

Definition init_state (n : nat) : RunState := {|
  rs_status := repeat "pending" n;
  rs_trace := [];
  rs_outputs := [];
  rs_errors := [];
  rs_log := [];
  rs_events := [];
  rs_apiCalls := 0
|}.

(** [nodes[i].status = s]. *)
Fixpoint set_nth (l : list string) (i : nat) (s : string) : list string :=
  match l, i with
  | [], _ => []
  | _ :: rest, O => s :: rest
  | x :: rest, S i' => x :: set_nth rest i' s
  end.

(** What the [try] block computes before [outputs[node.id] = resultData]. *)
Inductive body_result : Type :=
| BodyOk (data : jsval) (attempts : float) (fallbackUsed : bool)
| BodyThrow (message : string).

(** The [try] block's node body: the [apiCalls] increment, the error entries
    the fan-out merge pushes, and the result. *)
Definition node_body (env : Env) (context origin : jsval) (outputs : list (string * jsval))
    (node : jsval) : nat * list (jsval * string) * body_result :=
  let h := env_host env in
  let scope := JObj [("outputs", JObj outputs); ("context", context); ("_origin", origin)] in
  let type := js_get node "type" in
  if is_str type "http" then
    if truthy (opt_get (js_get node "fanout") "over") then
      let '(_, errs, res) := fanout_run h (http_call env node) node scope in
      (1%nat, errs, match res with
                    | Some (d, a, fb) => BodyOk d a fb
                    | None => BodyThrow "Invalid array length"
                    end)
    else
      (1%nat, [], match http_call env node scope with
                  | Fulfilled d a fb => BodyOk d (float_of_Z a) fb
                  | Rejected m => BodyThrow m
                  end)
  else if is_str type "transform" then
    (0%nat, [], match runTransformNode env node outputs with
                | Done v => BodyOk v 1 false
                | Throws m => BodyThrow m
                end)
  else (0%nat, [], BodyOk JNull 1 false).

(** One round of the [for] loop on node [i].  [publish] is the servers'
    [emit], which never throws (it returns early without subscribers and
    wraps every write in [try]); it is modelled as recording the event.
    [outputs[node.id] = resultData] is [put_member]: an id ["__proto__"]
    reaches the [__proto__] setter of [Object.prototype] and stores no own
    member.  The objects of the model carry no prototype (reads see own
    members only, as [js_get] does), so the prototype that setter may install
    is not represented, nor a second write to ["__proto__"] after it. *)
Definition exec_node (env : Env) (context origin : jsval) (i : nat) (node : jsval)
    (st : RunState) : RunState :=
  let id := js_get node "id" in
  let status1 := set_nth (rs_status st) i "running" in
  let trace1 := app (rs_trace st) [(i, "running")] in
  let events1 := app (rs_events st) [("node_start", id)] in
  let '(calls, errs, res) := node_body env context origin (rs_outputs st) node in
  match res with
  | BodyOk d a fb => {|
      rs_status := set_nth status1 i "completed";
      rs_trace := app trace1 [(i, "completed")];
      rs_outputs := put_member (rs_outputs st) (js_string (env_host env) id) d;
      rs_errors := app (rs_errors st) errs;
      rs_log := app (rs_log st) [LogOk id a fb];
      rs_events := app events1 [("node_complete", id)];
      rs_apiCalls := rs_apiCalls st + calls |}
  | BodyThrow m => {|
      rs_status := set_nth status1 i "failed";
      rs_trace := app trace1 [(i, "failed")];
      rs_outputs := rs_outputs st;
      rs_errors := app (rs_errors st) (app errs [(id, m)]);
      rs_log := app (rs_log st) [LogError id 1 m];
      rs_events := app events1 [("node_fail", id)];
      rs_apiCalls := rs_apiCalls st + calls |}
  end.

Fixpoint run_nodes (env : Env) (context origin : jsval) (i : nat) (nodes : list jsval)
    (st : RunState) : RunState :=
  match nodes with
  | [] => st
  | node :: rest => run_nodes env context origin (S i) rest (exec_node env context origin i node st)
  end.

(** How [executePipeline] settles: the run's state, or the message of the
    error it throws. *)
Inductive run_outcome : Type :=
| RunOk (st : RunState)
| RunThrows (message : string).

(** The receiver of [spec.<field>.map(...)]: the array, or the message of
    the V8 [TypeError] when it is not one. *)
Definition map_receiver (spec : jsval) (field : string) : list jsval + string :=
  match js_get spec field with
  | JArr l => inl l
  | JUndefined => inr "Cannot read properties of undefined (reading 'map')"
  | JNull => inr "Cannot read properties of null (reading 'map')"
  | _ => inr ("spec." ++ field ++ ".map is not a function")
  end.

(** [executePipeline(spec, ctx)]: the state it returns ([finalOutputs] adds
    [ranked_list], [correlation] and [count] to a copy of [rs_outputs]). *)
Definition executePipeline (env : Env) (spec ctx : jsval) : run_outcome :=
  match spec with
  | JUndefined => RunThrows "Cannot read properties of undefined (reading 'nodes')"
  | JNull => RunThrows "Cannot read properties of null (reading 'nodes')"
  | _ =>
      match map_receiver spec "nodes" with
      | inr m => RunThrows m
      | inl nodes =>
          match map_receiver spec "edges" with
          | inr m => RunThrows m
          | inl _ =>
              RunOk (run_nodes env (js_or (js_get ctx "context") (JObj [])) (js_get spec "_origin")
                       0 nodes (init_state (List.length nodes)))
          end
      end
  end.

(** *** The [/run] handlers *)






(** *** Sample runs *)

(** Every HTTP call fails, every row transform throws. *)
Definition env_fail : Env := {|
  env_host := host0;
  http_call := fun _ _ => Rejected "Request failed with status code 503";
  row_transform := fun _ _ _ => Throws "row transform failed"
|}.

(** An HTTP node, a transform node with an unknown [fn] and a node of
    another type. *)
Definition mixed_nodes : list jsval :=
  [JObj [("id", JStr "n1"); ("type", JStr "http"); ("url", JStr "https://example.org")];
   JObj [("id", JStr "t1"); ("type", JStr "transform"); ("fn", JStr "nope");
         ("args", JObj [("from", JStr "outputs.n1")])];
   JObj [("id", JStr "n3"); ("type", JStr "note")]].

Definition spec_mixed : jsval :=
  JObj [("nodes", JArr mixed_nodes);
        ("edges", JArr [JObj [("from", JStr "n1"); ("to", JStr "t1")]])].



(** A [note] node whose id is ["__proto__"]. *)
Definition spec_proto_id : jsval :=
  JObj [("nodes", JArr [JObj [("id", JStr "__proto__"); ("type", JStr "note")]]);
        ("edges", JArr [])].


(** An HTTP node retried once after a 100 ms backoff, without fallback. *)
Definition node_retry_once : jsval :=
  JObj [("id", JStr "n1"); ("type", JStr "http");
        ("retry", JObj [("times", JNum 1); ("backoff_ms", JNum 100)])].

(** Fan-out over [context.items] (five rows [{k: 1}] .. [{k: 5}]), each call
    binding [q] to its row's [k]; the call of the row [k = 2] fails. *)
Definition fan_scope : jsval :=
  JObj [("outputs", JObj []);
        ("context", JObj [("items", JArr (map (fun k => JObj [("k", JNum (float_of_nat k))])
                                              [1; 2; 3; 4; 5]%nat))]);
        ("_origin", JUndefined)].

Definition fan_node (max : jsval) : jsval :=
  JObj [("id", JStr "f"); ("type", JStr "http");
        ("fanout", JObj [("over", JStr "context.items"); ("max", max);
                         ("mapping", JObj [("q", JStr "k")])]);
        ("map", JObj [("name", JStr "$.name")])].

Definition fan_call (s : jsval) : call_result :=
  match js_get s "q" with
  | JNum q => if (q =? 2)%float then Rejected "timeout"
              else Fulfilled (JObj [("name", JArr [JStr (number_to_string host0 q)])]) 1 false
  | _ => Rejected "no item"
  end.

(** *** Views of a run used by the properties *)

(** A terminal node status. *)
Definition terminal (t : string) : Prop := t = "completed" \/ t = "failed".

(** The status writes of nodes [start], [start + 1], ... ending in [terms]:
    each node is marked running, then gets its terminal status. *)
Definition trace_blocks (start : nat) (terms : list string) : list (nat * string) :=
  flat_map (fun it => [(fst it, "running"); it]) (combine (seq start (List.length terms)) terms).

(** The events published for [nodes] ending in [terms]. *)
Definition event_blocks (nodes : list jsval) (terms : list string) : list (string * jsval) :=
  flat_map (fun nt => [("node_start", js_get (fst nt) "id");
                       ((if String.eqb (snd nt) "completed" then "node_complete" else "node_fail"),
                        js_get (fst nt) "id")]) (combine nodes terms).


(** ** Response mapping and row transforms *)

(** The spread [{...acc, ...v}]: the own enumerable members of [v] defined on
    [acc] in order ([null], [undefined], numbers and booleans have none). *)
Definition spread (acc : list (string * jsval)) (v : jsval) : list (string * jsval) :=
  fold_left (fun ps kv => set_prop ps (fst kv) (snd kv)) (entries v) acc.

(** [applyMap(json, map)]; [query jp json] is
    [JSONPath({path: jp, json, wrap: false})] for the value [jp] of a member
    of [map] ([None] when the library throws). *)
Definition applyMap (query : jsval -> jsval -> option jsval) (json map : jsval) : jsval :=
  if negb (truthy map) || negb (isObj map) then json
  else
    JObj (fold_left (fun out kv =>
            put_member out (fst kv)
              (match query (snd kv) json with
               | Some JUndefined | None => JNull
               | Some result => result
               end))
          (entries map) []).

Section RowTransforms.
Context (h : Host).

(** The [extra] object of row [i] in [t_join_on_index]:
    [validRightArrays.forEach((arr, idx) => { const key = rightKeys?.[idx];
     if (key) extra[key] = arr[i]; })]. *)
Definition join_extra (valid : list jsval) (rightKeys : jsval) (i : nat)
  : list (string * jsval) :=
  fold_left (fun extra ia =>
      let key := opt_get rightKeys (Z_to_decimal (Z.of_nat (fst ia))) in
      if truthy key
      then put_member extra (js_string h key) (nth i (array_elems (snd ia)) JUndefined)
      else extra)
    (combine (seq 0 (List.length valid)) valid) [].

(** [t_join_on_index(left, rightArrays, rightKeys)] for an array
    [rightArrays] (the only kind its caller passes). *)
Definition t_join_on_index (left : jsval) (rightArrays : list jsval) (rightKeys : jsval)
  : list jsval :=
  let leftRows := asRows left in
  let validRightArrays := map (fun arr => if is_array arr then arr else JArr []) rightArrays in
  map (fun ir => JObj (spread (spread [] (snd ir))
                              (JObj (join_extra validRightArrays rightKeys (fst ir)))))
      (combine (seq 0 (List.length leftRows)) leftRows).











End RowTransforms.

(** The node id and the success flag of a [runLog] entry. *)
Definition log_node (e : log_entry) : jsval :=
  match e with LogOk id _ _ => id | LogError id _ _ => id end.

Definition log_ok (e : log_entry) : bool :=
  match e with LogOk _ _ _ => true | LogError _ _ _ => false end.

(** An HTTP node ([node.type === "http"]). *)
Definition is_http (node : jsval) : bool := is_str (js_get node "type") "http".

(** *** Writes to an object *)

(** The last value a sequence of writes [w a] (key and value, or none)
    gives the key [k]. *)
Fixpoint last_write {A : Type} (w : A -> option (string * jsval)) (k : string) (l : list A)
  : option jsval :=
  match l with
  | [] => None
  | a :: r =>
      match last_write w k r with
      | Some x => Some x
      | None => match w a with
                | Some (k', x) => if String.eqb k' k then Some x else None
                | None => None
                end
      end
  end.

Definition write_step {A : Type} (w : A -> option (string * jsval))
    (ps : list (string * jsval)) (a : A) : list (string * jsval) :=
  match w a with Some (k, x) => set_prop ps k x | None => ps end.

(** *** Sample inputs of the row transforms and of single nodes *)

Definition join_left : jsval := JArr [JObj [("a", JNum 1)]; JObj [("a", JNum 2)]].

Definition join_right : list jsval := [JArr [JStr "x"; JStr "y"]; JNum 7].

Definition join_keys : jsval := JArr [JStr "b"; JStr "c"].



Definition map_query (jp json : jsval) : option jsval :=
  match jp with JStr "$.bad" => None | _ => Some (js_get json (js_string host0 jp)) end.

Definition note_node : jsval := JObj [("id", JStr "n3"); ("type", JStr "note")].

Definition transform_node : jsval :=
  JObj [("id", JStr "t1"); ("type", JStr "transform"); ("fn", JStr "nope");
        ("args", JObj [("from", JStr "outputs.n1")])].

Definition state_after_n1 : RunState := {|
  rs_status := ["completed"; "pending"];
  rs_trace := [];
  rs_outputs := [("n1", JStr "a")];
  rs_errors := [];
  rs_log := [];
  rs_events := [];
  rs_apiCalls := 1
|}.

Definition tmpl_scope : jsval :=
  JObj [("outputs", JObj [("n1", JObj [("name", JStr "Cafe")])])].

Definition sample_columns : list (string * jsval) :=
  [("a", JArr [JNum 1; JNum 2; JNum 3]); ("b", JArr [JStr "x"; JStr "y"])].


(** * Properties *)

(** ** Floating-point facts *)




Section Binary64Order.
Local Open Scope Z_scope.






























End Binary64Order.

(** ** Insertion sort by an integer key *)

Section KeySort.
Local Open Scope Z_scope.
Local Open Scope list_scope.

Variable key : jsval -> Z.
Variable cmp : jsval -> jsval -> float.
Hypothesis cmp_key : forall x y, (0 <? cmp y x)%float = (key y <? key x).











End KeySort.

(** ** Correlation *)

(** C1: at [xs = [undefined, 1, 2, 3]] and [ys = [5, 1, 2, undefined]] (equal
    lengths, non-numeric entries at different indices) the index-aligned numeric
    pairs are [(1,1)] and [(2,2)], whose Pearson coefficient is [1]; the code
    filters each series on its own, pairs [1,2,3] with [5,1,2] and returns a
    negative coefficient. *)
Theorem t_correlation_shifts_pairs :
  correlation_aligned host0 corr_xs_gap corr_ys_gap = 1%float /\
  t_correlation host0 corr_xs_gap corr_ys_gap = (-0.72057669212289199)%float.
Proof. split; vm_compute; reflexivity. Qed.




(** ** Ranking *)













(** ** Templates *)

Lemma str_app_assoc (a b c : string) : ((a ++ b) ++ c = a ++ (b ++ c))%string.
Proof. induction a as [|x a IH]; cbn; [reflexivity|]. rewrite IH. reflexivity. Qed.

Lemma str_app_nil_r (a : string) : (a ++ "")%string = a.
Proof. induction a as [|x a IH]; cbn; [reflexivity|]. rewrite IH. reflexivity. Qed.

Lemma all_chars_app (p : ascii -> bool) (a b : string) :
  all_chars p (a ++ b) = all_chars p a && all_chars p b.
Proof.
  induction a as [|x a IH]; cbn; [reflexivity|]. rewrite IH. apply andb_assoc.
Qed.

Lemma all_chars_impl (p q : ascii -> bool) (s : string) :
  (forall c, p c = true -> q c = true) -> all_chars p s = true -> all_chars q s = true.
Proof.
  intros H. induction s as [|c s IH]; cbn; [reflexivity|].
  intros E. apply andb_prop in E as [E1 E2]. rewrite (H c E1). apply IH, E2.
Qed.

Lemma span_all_app (p : ascii -> bool) (a b : string) :
  all_chars p a = true ->
  span p (a ++ b) = let '(x, y) := span p b in ((a ++ x)%string, y).
Proof.
  induction a as [|c a IH]; cbn; intros E.
  - destruct (span p b); reflexivity.
  - apply andb_prop in E as [E1 E2]. rewrite E1, (IH E2).
    destruct (span p b); reflexivity.
Qed.

Lemma strip_prefix_app (pre s : string) : strip_prefix pre (pre ++ s) = Some s.
Proof.
  induction pre as [|c pre IH]; cbn; [reflexivity|]. rewrite Ascii.eqb_refl. exact IH.
Qed.

Lemma trim_end_nonws (s : string) :
  all_chars (fun c => negb (is_ws c)) s = true -> trim_end s = s.
Proof.
  induction s as [|c s IH]; cbn; [reflexivity|]. intros E.
  apply andb_prop in E as [E1 E2]. rewrite (IH E2).
  apply negb_true_iff in E1. rewrite E1, andb_false_r. reflexivity.
Qed.

Lemma trim_end_last (s : string) (d : ascii) :
  is_ws d = false -> trim_end (s ++ String d "") = (s ++ String d "")%string.
Proof.
  intros Hd. induction s as [|c s IH]; cbn.
  - rewrite Hd, ?andb_false_r. reflexivity.
  - rewrite IH. destruct s; reflexivity.
Qed.

Lemma trim_nonws (s : string) :
  all_chars (fun c => negb (is_ws c)) s = true -> trim s = s.
Proof.
  intros E. unfold trim. destruct s as [|c s]; [reflexivity|].
  cbn in E. apply andb_prop in E as [E1 E2]. apply negb_true_iff in E1.
  cbn [trim_start]. rewrite E1. apply trim_end_nonws. cbn. rewrite E1, E2. reflexivity.
Qed.

Lemma path_char_not (c : ascii) :
  path_char c = true ->
  is_ws c = false /\ (c =? ",")%char = false /\ (c =? ")")%char = false /\
  (c =? "}")%char = false.
Proof.
  unfold path_char. intros E. apply negb_true_iff in E.
  repeat rewrite orb_false_iff in E. tauto.
Qed.

Lemma path_all (p : ascii -> bool) (s : string) :
  (forall c, path_char c = true -> p c = true) ->
  path_string s = true -> all_chars p s = true.
Proof.
  intros H E. apply andb_prop in E as [_ E]. exact (all_chars_impl _ _ _ H E).
Qed.

Lemma match_join_paths (latPath lonPath : string) :
  path_string latPath = true -> path_string lonPath = true ->
  match_join ("join_coords(" ++ latPath ++ ", " ++ lonPath ++ ")") =
  Some (latPath, lonPath).
Proof.
  intros La Lo. unfold match_join. rewrite strip_prefix_app.
  rewrite span_all_app.
  2: { apply (path_all _ _); [|exact La].
       intros c Hc. destruct (path_char_not c Hc) as (_ & -> & _ & _). reflexivity. }
  cbn [span String.append Ascii.eqb Bool.eqb andb negb].
  assert (Ea : is_empty latPath = false)
    by (apply andb_prop in La as [E _]; apply negb_true_iff, E).
  rewrite str_app_nil_r, Ea.
  destruct lonPath as [|c0 l0] eqn:Elon; [discriminate|].
  assert (C0 : path_char c0 = true).
  { apply andb_prop in Lo as [_ E]. cbn in E. apply andb_prop in E as [E _]. exact E. }
  destruct (path_char_not c0 C0) as (W & _ & P & _).
  cbn [span String.append is_ws Ascii.eqb Bool.eqb andb orb].
  rewrite W. cbn [span negb]. rewrite P. cbn [negb].
  rewrite span_all_app.
  2: { apply andb_prop in Lo as [_ E]. cbn in E. apply andb_prop in E as [_ E].
       apply (all_chars_impl path_char); [|exact E].
       intros c Hc. destruct (path_char_not c Hc) as (_ & _ & ->& _). reflexivity. }
  cbn. rewrite str_app_nil_r. reflexivity.
Qed.

Lemma path_no_close (s : string) :
  path_string s = true -> all_chars (fun c => negb (c =? "}")%char) s = true.
Proof.
  apply path_all. intros c Hc. destruct (path_char_not c Hc) as (_ & _ & _ & ->).
  reflexivity.
Qed.

Lemma placeholder_join (latPath lonPath : string) :
  path_string latPath = true -> path_string lonPath = true ->
  placeholder_at ("{{join_coords(" ++ latPath ++ ", " ++ lonPath ++ ")}}") =
  Some (("join_coords(" ++ latPath ++ ", " ++ lonPath ++ ")")%string, "").
Proof.
  intros La Lo. cbn [String.append placeholder_at span Ascii.eqb Bool.eqb andb negb].
  rewrite span_all_app by (apply path_no_close; exact La).
  cbn [String.append span Ascii.eqb Bool.eqb andb negb].
  rewrite span_all_app by (apply path_no_close; exact Lo).
  cbn [String.append span Ascii.eqb Bool.eqb andb negb is_empty String.eqb].
  reflexivity.
Qed.

Lemma replace_single (fuel : nat) (f : string -> option string) (s code : string) :
  (2 <= fuel)%nat -> placeholder_at s = Some (code, "") ->
  replace_placeholders fuel f s = f code.
Proof.
  intros Hf E. destruct fuel as [|[|fuel]]; [lia|lia|].
  destruct s as [|c r]; [discriminate|].
  cbn [replace_placeholders]. rewrite E. cbn [replace_placeholders].
  destruct (f code); [|reflexivity]. rewrite str_app_nil_r. reflexivity.
Qed.

Lemma trim_fixed (c d : ascii) (s : string) :
  is_ws c = false -> is_ws d = false ->
  trim (String c (s ++ String d "")) = String c (s ++ String d "").
Proof.
  intros Hc Hd. unfold trim. cbn [trim_start]. rewrite Hc. cbn [trim_end].
  rewrite trim_end_last by exact Hd. rewrite Hc, andb_false_r. reflexivity.
Qed.

Lemma trim_join_code (latPath lonPath : string) :
  trim ("join_coords(" ++ latPath ++ ", " ++ lonPath ++ ")") =
  ("join_coords(" ++ latPath ++ ", " ++ lonPath ++ ")")%string.
Proof.
  change ("join_coords(" ++ latPath ++ ", " ++ lonPath ++ ")")%string
    with (String "j" ("oin_coords(" ++ latPath ++ ", " ++ lonPath ++ ")")).
  replace ("oin_coords(" ++ latPath ++ ", " ++ lonPath ++ ")")%string
    with (("oin_coords(" ++ latPath ++ ", " ++ lonPath) ++ String ")" "")%string
    by (rewrite !str_app_assoc; reflexivity).
  apply trim_fixed; reflexivity.
Qed.

Lemma origin_coords_explicit (h : Host) (scope : jsval) :
  truthy (js_get scope "_origin") = true ->
  is_nullish (js_get (js_get scope "_origin") "lon") = false ->
  is_nullish (js_get (js_get scope "_origin") "lat") = false ->
  origin_coords h scope =
  Some (js_string h (js_get (js_get scope "_origin") "lon") ++ "," ++
        js_string h (js_get (js_get scope "_origin") "lat"))%string.
Proof.
  intros T Lo La. unfold origin_coords.
  assert (N : is_nullish scope = false)
    by (destruct scope; try reflexivity; discriminate T).
  rewrite N, T, Lo, La. reflexivity.
Qed.

Lemma coord_pairs_present (h : Host) (lats lons : list jsval) :
  Forall (fun v => is_nullish v = false) lats ->
  Forall (fun v => is_nullish v = false) lons ->
  coord_pairs h lats lons =
  map (fun '(lat, lon) => (js_string h lon ++ "," ++ js_string h lat)%string)
      (combine lats lons).
Proof.
  intros Fa. revert lons. induction Fa as [|lat lats Hlat Fa IH]; intros lons Fo;
    [reflexivity|].
  destruct Fo as [|lon lons Hlon Fo]; [reflexivity|].
  cbn [coord_pairs combine map]. rewrite Hlat, Hlon, (IH lons Fo). reflexivity.
Qed.

Lemma is_empty_pair (a b : string) : is_empty (a ++ "," ++ b) = false.
Proof. destruct a; reflexivity. Qed.

Lemma nonws_path (s : string) :
  path_string s = true -> all_chars (fun c => negb (is_ws c)) s = true.
Proof.
  apply path_all. intros c Hc. destruct (path_char_not c Hc) as (-> & _ & _ & _).
  reflexivity.
Qed.

Lemma interpolate_join_unfold (h : Host) (scope : jsval) (latPath lonPath : string) :
  path_string latPath = true -> path_string lonPath = true ->
  interpolate h ("{{join_coords(" ++ latPath ++ ", " ++ lonPath ++ ")}}") scope =
  interpolate_code h scope ("join_coords(" ++ latPath ++ ", " ++ lonPath ++ ")").
Proof.
  intros La Lo. unfold interpolate. apply replace_single.
  - cbn [String.length String.append]. lia.
  - apply placeholder_join; assumption.
Qed.

(** C9: interpolating [{{join_coords(latPath, lonPath)}}] with a scope whose
    [_origin] is set (truthy, with non-null [lon] and [lat]) and paths that
    resolve to arrays of non-null values yields the [";"]-joined ["lon,lat"]
    pairs, the origin first and then one pair per index of the two arrays;
    when either path does not resolve to an array it yields [""]; and the
    example with a zero origin yields ["0,0;10,1;20,2"] for every host. *)
Theorem interpolate_join_coords :
  (forall (h : Host) (scope : jsval) (latPath lonPath : string) (lats lons : list jsval),
     path_string latPath = true -> path_string lonPath = true ->
     resolvePathLike h scope latPath = JArr lats ->
     resolvePathLike h scope lonPath = JArr lons ->
     Forall (fun v => is_nullish v = false) lats ->
     Forall (fun v => is_nullish v = false) lons ->
     truthy (js_get scope "_origin") = true ->
     is_nullish (js_get (js_get scope "_origin") "lon") = false ->
     is_nullish (js_get (js_get scope "_origin") "lat") = false ->
     interpolate h ("{{join_coords(" ++ latPath ++ ", " ++ lonPath ++ ")}}") scope =
     Some (join_strings ";"
             ((js_string h (js_get (js_get scope "_origin") "lon") ++ "," ++
               js_string h (js_get (js_get scope "_origin") "lat"))
              :: map (fun '(lat, lon) => js_string h lon ++ "," ++ js_string h lat)
                     (combine lats lons)))) /\
  (forall (h : Host) (scope : jsval) (latPath lonPath : string),
     path_string latPath = true -> path_string lonPath = true ->
     is_array (resolvePathLike h scope latPath) &&
     is_array (resolvePathLike h scope lonPath) = false ->
     interpolate h ("{{join_coords(" ++ latPath ++ ", " ++ lonPath ++ ")}}") scope =
     Some "") /\
  (forall h : Host,
     interpolate h "{{join_coords(outputs.a.lat, outputs.a.lon)}}" interp_scope =
     Some "0,0;10,1;20,2").
Proof.
  split; [|split].
  - intros h scope latPath lonPath lats lons La Lo Ra Ro Fa Fo T OLo OLa.
    rewrite (interpolate_join_unfold h scope _ _ La Lo).
    unfold interpolate_code. rewrite trim_join_code, (match_join_paths _ _ La Lo).
    rewrite (trim_nonws _ (nonws_path _ La)), (trim_nonws _ (nonws_path _ Lo)).
    rewrite Ra, Ro. cbn [is_array andb array_elems].
    rewrite (origin_coords_explicit h scope T OLo OLa), is_empty_pair.
    rewrite (coord_pairs_present h lats lons Fa Fo). reflexivity.
  - intros h scope latPath lonPath La Lo NA.
    rewrite (interpolate_join_unfold h scope _ _ La Lo).
    unfold interpolate_code. rewrite trim_join_code, (match_join_paths _ _ La Lo).
    rewrite (trim_nonws _ (nonws_path _ La)), (trim_nonws _ (nonws_path _ Lo)).
    rewrite NA. reflexivity.
  - intros h. vm_compute. reflexivity.
Qed.

Lemma interpolate_join_coords_witness :
  interpolate host0 ("{{join_coords(" ++ "outputs.a.lat" ++ ", " ++ "outputs.a.lon" ++ ")}}")
    interp_scope =
  Some (join_strings ";"
          ((js_string host0 (js_get (js_get interp_scope "_origin") "lon") ++ "," ++
            js_string host0 (js_get (js_get interp_scope "_origin") "lat"))
           :: map (fun '(lat, lon) => js_string host0 lon ++ "," ++ js_string host0 lat)
                  (combine [JNum 1; JNum 2] [JNum 10; JNum 20]))).
Proof.
  apply (proj1 interpolate_join_coords host0 interp_scope "outputs.a.lat" "outputs.a.lon"
           [JNum 1; JNum 2] [JNum 10; JNum 20]);
    first [vm_compute; reflexivity | repeat constructor].
Defined.

(** ** Engine properties *)

Section SafeCompare.
Local Open Scope Z_scope.

Lemma safe_integer_cases (t : float) (z : Z) :
  safe_integer t = Some z ->
  (exists s, Prim2SF t = S754_zero s /\ z = 0) \/
  (exists s m e, Prim2SF t = S754_finite s m e /\
     (0 <= e /\ z = cond_Zopp s (Zpos m) * 2 ^ e \/
      e < 0 /\ Zpos m = z * 2 ^ (- e) * (if s then -1 else 1))).
Proof.
  unfold safe_integer. destruct (Prim2SF t) as [s|s| |s m e]; intro H; try discriminate.
  - left. exists s. split; [reflexivity|]. injection H; auto.
  - right. exists s, m, e. split; [reflexivity|].
    destruct (Z.leb_spec 0 e) as [E|E].
    + left. split; [exact E|].
      destruct (Z.shiftl (Zpos m) e <? 2 ^ 53); [|discriminate].
      injection H as <-. rewrite Z.shiftl_mul_pow2 by exact E.
      destruct s; cbn [cond_Zopp]; lia.
    + right. split; [exact E|].
      destruct (Z.land (Zpos m) (Z.ones (- e)) =? 0) eqn:L; [|discriminate].
      destruct (Z.shiftr (Zpos m) (- e) <? 2 ^ 53); [|discriminate].
      injection H as <-. apply Z.eqb_eq in L.
      rewrite Z.land_ones in L by lia. rewrite Z.shiftr_div_pow2 by lia.
      assert (P : 0 < 2 ^ (- e)) by (apply Z.pow_pos_nonneg; lia).
      pose proof (Z.div_mod (Zpos m) (2 ^ (- e)) ltac:(lia)) as D.
      rewrite L, Z.add_0_r in D.
      destruct s; lia.
Qed.

Lemma int_le_num_safe (a z : Z) (t : float) :
  safe_integer t = Some z -> int_le_num a t = (a <=? z).
Proof.
  intro H. unfold int_le_num.
  destruct (safe_integer_cases t z H) as [(s & E & ->) | (s & m & e & E & C)];
    rewrite E; [reflexivity|].
  apply Bool.eq_iff_eq_true. rewrite !Z.leb_le.
  destruct C as [(He & ->) | (He & Hm)].
  - rewrite (proj2 (Z.leb_le 0 e) He). rewrite Z.leb_le. tauto.
  - rewrite (proj2 (Z.leb_gt 0 e) He). rewrite Z.leb_le.
    assert (P : 0 < 2 ^ (- e)) by (apply Z.pow_pos_nonneg; lia).
    destruct s; cbn [cond_Zopp]; rewrite Hm; split; intro; nia.
Qed.

Lemma int_gt_num_safe (a z : Z) (t : float) :
  safe_integer t = Some z -> int_gt_num a t = (z <? a).
Proof.
  intro H. unfold int_gt_num.
  destruct (safe_integer_cases t z H) as [(s & E & ->) | (s & m & e & E & C)];
    rewrite E; [reflexivity|].
  apply Bool.eq_iff_eq_true. rewrite !Z.ltb_lt.
  destruct C as [(He & ->) | (He & Hm)].
  - rewrite (proj2 (Z.leb_le 0 e) He). rewrite Z.ltb_lt. tauto.
  - rewrite (proj2 (Z.leb_gt 0 e) He). rewrite Z.ltb_lt.
    assert (P : 0 < 2 ^ (- e)) by (apply Z.pow_pos_nonneg; lia).
    destruct s; cbn [cond_Zopp]; rewrite Hm; split; intro; nia.
Qed.

End SafeCompare.

Section RetryLoop.
Variables (maxRetries backoff : float) (fallback : bool) (id : string)
          (send : nat -> send_result) (k : nat).
Hypothesis Hk : safe_integer maxRetries = Some (Z.of_nat k).

Let delay (a : nat) : float := (backoff * pow2 (Z.of_nat a - 1))%float.

Lemma http_attempts_success (d : jsval) : forall n j fuel delays,
  (j + n <= k)%nat -> (n < fuel)%nat ->
  (forall b, (j < b <= j + n)%nat -> exists m, send b = SendErr m) ->
  send (S (j + n)) = SendOk d ->
  http_attempts fuel j maxRetries backoff fallback id send delays =
  Some (app delays (map delay (seq (S j) n)), Fulfilled d (Z.of_nat (S (j + n))) false).
Proof.
  induction n as [|n IH]; intros j fuel delays Hjn Hf Hb Hs;
    destruct fuel as [|fuel]; try lia; cbn [http_attempts].
  - rewrite (int_le_num_safe _ _ _ Hk), (proj2 (Z.leb_le _ _)) by lia.
    rewrite Nat.add_0_r in Hs. rewrite Hs, app_nil_r, Nat.add_0_r. reflexivity.
  - rewrite (int_le_num_safe _ _ _ Hk), (proj2 (Z.leb_le _ _)) by lia.
    destruct (Hb (S j) ltac:(lia)) as [m Hm]. rewrite Hm.
    rewrite (int_gt_num_safe _ _ _ Hk), (proj2 (Z.ltb_ge _ _)) by lia.
    rewrite (IH (S j) fuel);
      [| lia | lia | intros b Hb'; apply Hb; lia | rewrite <- Hs; f_equal; lia].
    rewrite <- app_assoc. cbn [seq map app]. do 3 f_equal. lia.
Qed.

Lemma http_attempts_exhausted (msg : string) : forall n j fuel delays,
  (j + n = k)%nat -> (n < fuel)%nat ->
  (forall b, (j < b <= k)%nat -> exists m, send b = SendErr m) ->
  send (S k) = SendErr msg ->
  http_attempts fuel j maxRetries backoff fallback id send delays =
  Some (app delays (map delay (seq (S j) n)),
        Rejected (if fallback then
                    "Node " ++ id ++ " failed after " ++ Z_to_decimal (Z.of_nat (S k))
                    ++ " attempts: " ++ msg
                  else msg)).
Proof.
  induction n as [|n IH]; intros j fuel delays Hjn Hf Hb Hs;
    destruct fuel as [|fuel]; try lia; cbn [http_attempts].
  - rewrite (int_le_num_safe _ _ _ Hk), (proj2 (Z.leb_le _ _)) by lia.
    rewrite Nat.add_0_r in Hjn. subst j. rewrite Hs.
    rewrite (int_gt_num_safe _ _ _ Hk), (proj2 (Z.ltb_lt _ _)) by lia.
    rewrite app_nil_r. destruct fallback; reflexivity.
  - rewrite (int_le_num_safe _ _ _ Hk), (proj2 (Z.leb_le _ _)) by lia.
    destruct (Hb (S j) ltac:(lia)) as [m Hm]. rewrite Hm.
    rewrite (int_gt_num_safe _ _ _ Hk), (proj2 (Z.ltb_ge _ _)) by lia.
    rewrite (IH (S j) fuel); [| lia | lia | intros b Hb'; apply Hb; lia | exact Hs].
    rewrite <- app_assoc. reflexivity.
Qed.

End RetryLoop.

Section EngineLoop.
Local Open Scope list_scope.

Lemma set_nth_app (l1 l2 : list string) (x y : string) :
  set_nth (l1 ++ x :: l2) (List.length l1) y = l1 ++ y :: l2.
Proof. induction l1 as [|a l1 IH]; cbn; [reflexivity | now rewrite IH]. Qed.

Lemma nth_set_nth (l : list string) (i : nat) (x : string) :
  (i < List.length l)%nat -> nth i (set_nth l i x) "" = x.
Proof.
  revert i. induction l as [|a l IH]; intros [|i] H; cbn in *; try lia; auto.
  apply IH. lia.
Qed.

Lemma length_set_nth (l : list string) (i : nat) (x : string) :
  List.length (set_nth l i x) = List.length l.
Proof. revert i. induction l as [|a l IH]; intros [|i]; cbn; auto. Qed.

Lemma set_prop_keys (ps : list (string * jsval)) (k : string) (x : jsval) (k' : string) :
  In k' (map fst (set_prop ps k x)) <-> k' = k \/ In k' (map fst ps).
Proof.
  induction ps as [|[k0 y] ps IH]; cbn; [split; intro H; intuition congruence|].
  destruct (String.eqb_spec k0 k) as [->|Hne]; cbn; [|rewrite IH];
    split; intro H; intuition congruence.
Qed.

Lemma put_member_keys (ps : list (string * jsval)) (k : string) (x : jsval) (k' : string) :
  In k' (map fst (put_member ps k x)) <->
  (k' = k /\ k <> "__proto__") \/ In k' (map fst ps).
Proof.
  unfold put_member. destruct (String.eqb_spec k "__proto__") as [E|E].
  - intuition.
  - rewrite set_prop_keys. intuition.
Qed.


Lemma exec_node_cases (env : Env) (c o : jsval) (i : nat) (node : jsval) (st : RunState) :
  let st' := exec_node env c o i node st in
  let id := js_get node "id" in
  exists t, terminal t /\
    rs_status st' = set_nth (set_nth (rs_status st) i "running") i t /\
    rs_trace st' = rs_trace st ++ [(i, "running"); (i, t)] /\
    rs_events st' = rs_events st ++ [("node_start", id);
                                    ((if String.eqb t "completed" then "node_complete" else "node_fail"), id)] /\
    (t = "completed" -> exists d, rs_outputs st' = put_member (rs_outputs st) (js_string (env_host env) id) d) /\
    (t = "failed" -> rs_outputs st' = rs_outputs st).
Proof.
  cbn zeta. unfold exec_node.
  destruct (node_body env c o (rs_outputs st) node) as [[calls errs] res].
  destruct res as [d a fb | m]; cbn [rs_status rs_trace rs_events rs_outputs].
  - exists "completed". repeat split; try (left; reflexivity);
      try (rewrite <- app_assoc; reflexivity); try discriminate.
    intros _. exists d. reflexivity.
  - exists "failed". repeat split; try (right; reflexivity);
      try (rewrite <- app_assoc; reflexivity); try discriminate.
Qed.

Lemma run_nodes_shape (env : Env) (c o : jsval) : forall nodes done st,
  rs_status st = done ++ repeat "pending" (List.length nodes) ->
  exists terms, List.length terms = List.length nodes /\ Forall terminal terms /\
    let st' := run_nodes env c o (List.length done) nodes st in
    rs_status st' = done ++ terms /\
    rs_trace st' = rs_trace st ++ trace_blocks (List.length done) terms /\
    rs_events st' = rs_events st ++ event_blocks nodes terms /\
    (forall k, In k (map fst (rs_outputs st')) <->
               In k (map fst (rs_outputs st)) \/
               Exists (fun nt => snd nt = "completed" /\
                                 k = js_string (env_host env) (js_get (fst nt) "id") /\
                                 k <> "__proto__")
                      (combine nodes terms)).
Proof.
  induction nodes as [|node nodes IH]; intros done st Hs.
  - exists []. cbn in *. rewrite app_nil_r in *.
    split; [reflexivity|]. split; [constructor|].
    split; [exact Hs|]. split; [symmetry; apply app_nil_r|].
    split; [symmetry; apply app_nil_r|].
    intros k; split; intro H; auto. destruct H as [H|H]; auto. inversion H.
  - destruct (exec_node_cases env c o (List.length done) node st)
      as (t & Ht & Hst & Htr & Hev & Hc & Hf).
    set (st1 := exec_node env c o (List.length done) node st) in *.
    assert (Hs1 : rs_status st1 = (done ++ [t]) ++ repeat "pending" (List.length nodes)).
    { rewrite Hst, Hs. cbn [List.length repeat].
      rewrite !set_nth_app, <- app_assoc. reflexivity. }
    pose proof (IH (done ++ [t]) st1 Hs1) as IH1.
    replace (List.length (done ++ [t])) with (S (List.length done)) in IH1
      by (rewrite length_app; cbn; lia).
    destruct IH1 as (terms & Hlen & Hterm & Hst' & Htr' & Hev' & Hout').
    exists (t :: terms). cbn [List.length run_nodes]. fold st1.
    repeat split.
    + now rewrite Hlen.
    + now constructor.
    + rewrite Hst', <- app_assoc. reflexivity.
    + rewrite Htr', Htr, <- app_assoc. unfold trace_blocks. cbn [List.length seq combine flat_map].
      rewrite Hlen. reflexivity.
    + rewrite Hev', Hev, <- app_assoc. reflexivity.
    + intro H. apply Hout' in H. cbn [combine]. rewrite Exists_cons.
      destruct H as [H|H]; [|tauto].
      destruct Ht as [Ht|Ht].
      * destruct (Hc Ht) as [d Hd]. rewrite Hd, put_member_keys in H.
        destruct H as [[H1 H2]|H]; [right; left; subst; auto | left; exact H].
      * rewrite (Hf Ht) in H. left. exact H.
    + intro H. apply Hout'. cbn [combine] in H. rewrite Exists_cons in H.
      destruct H as [H|[[H1 H2]|H]]; [left | left | right; exact H].
      * destruct Ht as [Ht|Ht].
        -- destruct (Hc Ht) as [d Hd]. rewrite Hd, put_member_keys. right; exact H.
        -- rewrite (Hf Ht). exact H.
      * destruct H2 as [H2 H3]. cbn [fst snd] in H1, H2. rewrite H1 in Hc.
        destruct (Hc eq_refl) as [d Hd]. rewrite Hd, put_member_keys. left.
        subst k. auto.
Qed.

Lemma executePipeline_run (env : Env) (spec ctx : jsval) (nodes : list jsval) :
  js_get spec "nodes" = JArr nodes -> is_array (js_get spec "edges") = true ->
  executePipeline env spec ctx =
  RunOk (run_nodes env (js_or (js_get ctx "context") (JObj [])) (js_get spec "_origin")
           0 nodes (init_state (List.length nodes))).
Proof.
  intros Hn He. unfold executePipeline, map_receiver.
  destruct (js_get spec "edges") eqn:E; try discriminate He.
  destruct spec; try (rewrite Hn; reflexivity); cbn in Hn; discriminate Hn.
Qed.

End EngineLoop.

Section EngineFacts.
Local Open Scope list_scope.

Lemma executePipeline_ok (env : Env) (spec ctx : jsval) (st : RunState) :
  executePipeline env spec ctx = RunOk st ->
  exists nodes, js_get spec "nodes" = JArr nodes /\ is_array (js_get spec "edges") = true.
Proof.
  intro H. unfold executePipeline, map_receiver in H.
  destruct (js_get spec "nodes") eqn:N; destruct (js_get spec "edges") eqn:E;
    destruct spec; try discriminate H; eauto.
Qed.

Lemma trace_blocks_cons (start : nat) (t : string) (terms : list string) :
  trace_blocks start (t :: terms) = [(start, "running"); (start, t)] ++ trace_blocks (S start) terms.
Proof. reflexivity. Qed.

Lemma trace_blocks_ge (start : nat) (terms : list string) (w : nat * string) :
  In w (trace_blocks start terms) -> (start <= fst w)%nat.
Proof.
  revert start. induction terms as [|t terms IH]; intros start H; [inversion H|].
  rewrite trace_blocks_cons in H. apply in_app_or in H.
  destruct H as [[<-|[<-|[]]]|H]; cbn; try lia.
  apply IH in H. lia.
Qed.

Lemma filter_none {A} (f : A -> bool) (l : list A) :
  (forall x, In x l -> f x = false) -> filter f l = [].
Proof.
  induction l as [|x l IH]; intro H; cbn; [reflexivity|].
  rewrite (H x (or_introl eq_refl)). apply IH. intros y Hy. apply H. right. exact Hy.
Qed.

Lemma trace_blocks_filter (terms : list string) : forall start i,
  (start <= i < start + List.length terms)%nat ->
  filter (fun w => Nat.eqb (fst w) i) (trace_blocks start terms) =
  [(i, "running"); (i, nth (i - start) terms "")].
Proof.
  induction terms as [|t terms IH]; intros start i Hi; cbn [List.length] in Hi; [lia|].
  rewrite trace_blocks_cons, filter_app. cbn [filter fst].
  destruct (Nat.eqb_spec start i) as [->|Hne].
  - rewrite filter_none. 2: { intros w Hw. apply trace_blocks_ge in Hw.
                              apply Nat.eqb_neq. lia. }
    rewrite Nat.sub_diag. reflexivity.
  - rewrite IH by lia. cbn [app].
    replace (i - start)%nat with (S (i - S start)) by lia. reflexivity.
Qed.

Lemma Exists_combine_nth {A B} (P : A * B -> Prop) (da : A) (db : B) :
  forall (la : list A) (lb : list B), List.length la = List.length lb ->
  Exists P (combine la lb) <->
  exists j, (j < List.length la)%nat /\ P (nth j la da, nth j lb db).
Proof.
  induction la as [|a la IH]; intros [|b lb] Hl; cbn in Hl; try discriminate.
  - cbn. split; [intro H; inversion H | intros (j & Hj & _); cbn in Hj; lia].
  - cbn [combine]. rewrite Exists_cons, IH by lia. split.
    + intros [H|(j & Hj & H)]; [exists 0%nat | exists (S j)]; cbn; split; auto; lia.
    + intros ([|j] & Hj & H); [left; exact H | right; exists j; cbn in *; split; auto; lia].
Qed.

End EngineFacts.

(** C3 (amended).  A live HTTP node whose [retry.times] is a non-negative
    integer [k]: attempts go on until one succeeds or [k + 1] have failed;
    after each failing attempt [a] that is not the last the runner sleeps
    [backoff_ms * 2^(a-1)] (default 100); a success at attempt [a] resolves
    with [attempts = a]; after [k + 1] failures it throws an error whose
    message carries the attempt count and the last message
    ("Node <id> failed after <k+1> attempts: <msg>") only when the node has a
    truthy [fallback], and otherwise rethrows the last error itself. *)
Theorem runHttpNode_retry_amended (h : Host) (fuel k : nat) (t : float) (mock node : jsval)
    (send : nat -> send_result)
    (Ht : opt_get (js_get node "retry") "times" = JNum t)
    (Hk : safe_integer t = Some (Z.of_nat k))
    (Hf : (k < fuel)%nat) :
  let backoff := js_number h (coalesce (opt_get (js_get node "retry") "backoff_ms") (JNum 100)) in
  let delay (a : nat) := (backoff * pow2 (Z.of_nat a - 1))%float in
  (forall a d, (1 <= a <= S k)%nat ->
     (forall b, (1 <= b < a)%nat -> exists m, send b = SendErr m) ->
     send a = SendOk d ->
     runHttpNode h fuel false mock node send =
     Some (map delay (seq 1 (a - 1)), Fulfilled d (Z.of_nat a) false)) /\
  (forall msg,
     (forall b, (1 <= b <= k)%nat -> exists m, send b = SendErr m) ->
     send (S k) = SendErr msg ->
     runHttpNode h fuel false mock node send =
     Some (map delay (seq 1 k),
           Rejected (if truthy (js_get node "fallback") then
                       "Node " ++ js_string h (js_get node "id") ++ " failed after "
                       ++ Z_to_decimal (Z.of_nat (S k)) ++ " attempts: " ++ msg
                     else msg))).
Proof.
  cbn zeta. unfold runHttpNode. rewrite Ht. cbn [coalesce is_nullish].
  change (js_number h (JNum t)) with t.
  split.
  - intros a d Ha Hb Hs.
    pose proof (http_attempts_success t
                  (js_number h (coalesce (opt_get (js_get node "retry") "backoff_ms") (JNum 100)))
                  (truthy (js_get node "fallback")) (js_string h (js_get node "id")) send k Hk d
                  (a - 1) 0 fuel []) as H.
    replace (S (0 + (a - 1))) with a in H by lia.
    apply H; try lia.
    + intros b Hb'. apply Hb. lia.
    + exact Hs.
  - intros msg Hb Hs.
    apply (http_attempts_exhausted t _ _ _ send k Hk msg k 0 fuel []); auto.
Qed.

(** C5.  Whenever [executePipeline] gets past its [spec.nodes.map] and
    [spec.edges.map] (both arrays), it returns, and every node, in list
    order, is written [running] and then exactly one terminal status
    ([completed] or [failed]) before the next node is written: the status
    writes are exactly the blocks [(i, running); (i, t_i)] for
    i = 0, 1, ..., each node's writes are [running] then [t_i] (from the
    initial [pending]), its final status is [t_i], and the published events
    follow the same order. *)
Theorem executePipeline_sequential (env : Env) (spec ctx : jsval) (nodes : list jsval)
    (Hn : js_get spec "nodes" = JArr nodes)
    (He : is_array (js_get spec "edges") = true) :
  exists st terms,
    executePipeline env spec ctx = RunOk st /\
    List.length terms = List.length nodes /\ Forall terminal terms /\
    rs_status st = terms /\
    rs_trace st = trace_blocks 0 terms /\
    rs_events st = event_blocks nodes terms /\
    (forall i, (i < List.length nodes)%nat ->
       map snd (filter (fun w => Nat.eqb (fst w) i) (rs_trace st)) =
       ["running"; nth i terms ""]).
Proof.
  rewrite (executePipeline_run env spec ctx nodes Hn He).
  destruct (run_nodes_shape env (js_or (js_get ctx "context") (JObj [])) (js_get spec "_origin")
              nodes [] (init_state (List.length nodes)) eq_refl)
    as (terms & Hlen & Hterm & Hst & Htr & Hev & _).
  eexists; exists terms. split; [reflexivity|].
  cbn [List.length] in Hst, Htr. cbn [rs_trace rs_events init_state] in Htr, Hev.
  repeat split; auto.
  intros i Hi. rewrite Htr. cbn [app].
  rewrite trace_blocks_filter by lia. rewrite Nat.sub_0_r. reflexivity.
Qed.

(** C10: a [note] node with id ["__proto__"] completes, but
    [outputs["__proto__"] = null] goes to the prototype setter and leaves the
    outputs object without a member. *)
Lemma executePipeline_proto_id_no_entry :
  executePipeline env_fail spec_proto_id (JObj []) =
  RunOk {| rs_status := ["completed"];
           rs_trace := [(0%nat, "running"); (0%nat, "completed")];
           rs_outputs := [];
           rs_errors := [];
           rs_log := [LogOk (JStr "__proto__") 1 false];
           rs_events := [("node_start", JStr "__proto__"); ("node_complete", JStr "__proto__")];
           rs_apiCalls := 0 |}.
Proof. vm_compute. reflexivity. Qed.

(** C10 (amended).  Node failure is atomic for the output store: a node
    round that ends with the node [failed] leaves the outputs object
    unchanged; and, node ids being distinct, after a run the outputs object
    has a member for the id of node [i] iff node [i] ended [completed] and
    its id is not ["__proto__"], and no other member. *)
Theorem executePipeline_store_atomic_amended (env : Env) :
  (forall c o i node st,
     nth i (rs_status (exec_node env c o i node st)) "" = "failed" ->
     rs_outputs (exec_node env c o i node st) = rs_outputs st) /\
  (forall spec ctx nodes st,
     js_get spec "nodes" = JArr nodes ->
     executePipeline env spec ctx = RunOk st ->
     NoDup (map (fun n => js_string (env_host env) (js_get n "id")) nodes) ->
     (forall i, (i < List.length nodes)%nat ->
        (In (js_string (env_host env) (js_get (nth i nodes JUndefined) "id")) (map fst (rs_outputs st))
         <-> nth i (rs_status st) "" = "completed" /\
             js_string (env_host env) (js_get (nth i nodes JUndefined) "id") <> "__proto__")) /\
     (forall k, In k (map fst (rs_outputs st)) ->
        exists i, (i < List.length nodes)%nat /\
                  k = js_string (env_host env) (js_get (nth i nodes JUndefined) "id") /\
                  nth i (rs_status st) "" = "completed")).
Proof.
  split.
  - intros c o i node st H.
    destruct (exec_node_cases env c o i node st) as (t & Ht & Hst & _ & _ & Hc & Hf).
    destruct Ht as [Ht|Ht]; subst t; [|apply Hf; reflexivity].
    exfalso. rewrite Hst in H.
    destruct (Nat.lt_ge_cases i (List.length (rs_status st))) as [Hi|Hi].
    + rewrite nth_set_nth in H by (rewrite length_set_nth; exact Hi). discriminate H.
    + rewrite nth_overflow in H by (rewrite !length_set_nth; exact Hi). discriminate H.
  - intros spec ctx nodes st Hn Hrun Hnd.
    destruct (executePipeline_ok env spec ctx st Hrun) as (nodes' & Hn' & He).
    rewrite (executePipeline_run env spec ctx nodes Hn He) in Hrun.
    injection Hrun as <-.
    destruct (run_nodes_shape env (js_or (js_get ctx "context") (JObj [])) (js_get spec "_origin")
                nodes [] (init_state (List.length nodes)) eq_refl)
      as (terms & Hlen & Hterm & Hst & _ & _ & Hout).
    cbn [List.length app] in Hst, Hout. rewrite Hst.
    set (key := fun n => js_string (env_host env) (js_get n "id")) in *.
    assert (Hk : forall k, In k (map fst (rs_outputs (run_nodes env (js_or (js_get ctx "context") (JObj []))
                                   (js_get spec "_origin") 0 nodes (init_state (List.length nodes))))) <->
                 exists j, (j < List.length nodes)%nat /\ nth j terms "" = "completed" /\
                           k = key (nth j nodes JUndefined) /\ k <> "__proto__").
    { intro k. rewrite Hout. cbn [rs_outputs init_state map In].
      rewrite (Exists_combine_nth _ JUndefined "" nodes terms) by auto.
      split; [intros [[]|(j & Hj & H1 & H2 & H3)] | intros (j & Hj & H1 & H2 & H3)];
        [exists j; auto | right; exists j; auto]. }
    split.
    + intros i Hi. rewrite Hk. split.
      * intros (j & Hj & Hc & Heq & Hp).
        assert (j = i) as ->; [|split; [exact Hc | exact Hp]].
        apply (proj1 (NoDup_nth (map key nodes) (key JUndefined)) Hnd);
          rewrite ?length_map; auto.
        rewrite !map_nth. symmetry. exact Heq.
      * intros (Hc & Hp). exists i. auto.
    + intros k Hin. apply Hk in Hin. destruct Hin as (j & Hj & Hc & Heq & _).
      exists j. auto.
Qed.




(** C3: without [fallback], a node with [retry.times = 1] whose two
    attempts both fail throws the raw last error, whose message carries no
    attempt count. *)
Lemma runHttpNode_no_fallback_raw_error :
  runHttpNode host0 5 false JNull node_retry_once
    (fun _ => SendErr "Request failed with status code 503") =
  Some ([100%float], Rejected "Request failed with status code 503").
Proof. vm_compute. reflexivity. Qed.

Lemma runHttpNode_retry_amended_witness :
  opt_get (js_get node_retry_once "retry") "times" = JNum 1 /\
  safe_integer 1 = Some (Z.of_nat 1) /\
  runHttpNode host0 5 false JNull node_retry_once (fun _ => SendErr "e") =
  Some ([100%float], Rejected "e").
Proof.
  split; [reflexivity|]. split; [vm_compute; reflexivity|].
  rewrite (proj2 (runHttpNode_retry_amended host0 5 1 1 JNull node_retry_once (fun _ => SendErr "e")
                    eq_refl ltac:(vm_compute; reflexivity) ltac:(lia))
                 "e" ltac:(intros b _; exists "e"; reflexivity) eq_refl).
  vm_compute. reflexivity.
Defined.

Lemma executePipeline_sequential_witness :
  js_get spec_mixed "nodes" = JArr mixed_nodes /\
  exists st terms, executePipeline env_fail spec_mixed (JObj []) = RunOk st /\
    List.length terms = 3%nat /\ rs_status st = terms.
Proof.
  split; [reflexivity|].
  destruct (executePipeline_sequential env_fail spec_mixed (JObj []) _ eq_refl eq_refl)
    as (st & terms & H1 & H2 & _ & H3 & _).
  exists st, terms. auto.
Defined.

Lemma executePipeline_store_atomic_amended_witness :
  executePipeline env_fail spec_mixed (JObj []) =
    RunOk (run_nodes env_fail (JObj []) JUndefined 0
             mixed_nodes (init_state 3)) /\
  (In "n1" (map fst (rs_outputs (run_nodes env_fail (JObj []) JUndefined 0
             mixed_nodes (init_state 3))))
   <-> nth 0 (rs_status (run_nodes env_fail (JObj []) JUndefined 0
             mixed_nodes (init_state 3))) "" = "completed" /\ "n1" <> "__proto__").
Proof.
  assert (Hrun : executePipeline env_fail spec_mixed (JObj []) =
    RunOk (run_nodes env_fail (JObj []) JUndefined 0
             mixed_nodes (init_state 3))) by reflexivity.
  split; [exact Hrun|].
  exact (proj1 (proj2 (executePipeline_store_atomic_amended env_fail) spec_mixed (JObj []) _ _
                  eq_refl Hrun ltac:(vm_compute; repeat constructor; cbn; intuition discriminate))
               0%nat ltac:(cbn; lia)).
Defined.




(** C4.  [fanout.max || baseArr.length]: with [max = 0] over five items,
    [min(max, L) = 0] but all five calls are dispatched.  With [max = 3]
    (the scenario of the spec) three calls are dispatched, the failing
    position 1 gives one error entry [f[1]] and [null] in the column. *)
Theorem fanout_max_zero_dispatches_all :
  List.length (fst (fst (fanout_run host0 fan_call (fan_node (JNum 0)) fan_scope))) = 5%nat /\
  List.length (fst (fst (fanout_run host0 fan_call (fan_node (JNum 3)) fan_scope))) = 3%nat /\
  snd (fst (fanout_run host0 fan_call (fan_node (JNum 3)) fan_scope)) = [(JStr "f[1]", "timeout")] /\
  snd (fanout_run host0 fan_call (fan_node (JNum 3)) fan_scope) =
    Some (JObj [("name", JArr [JStr "1"; JNull; JStr "3"])], 1%float, false).
Proof. vm_compute. repeat split. Qed.

(** ** Further properties of the row transforms, [applyMap], [asRows] and the engine *)

Section ObjectWrites.
Local Open Scope list_scope.

Lemma find_set_prop (ps : list (string * jsval)) (k k' : string) (x : jsval) :
  find (fun kv => String.eqb (fst kv) k') (set_prop ps k x) =
  if String.eqb k k' then Some (k, x) else find (fun kv => String.eqb (fst kv) k') ps.
Proof.
  induction ps as [|[k0 y] ps IH]; cbn.
  - destruct (String.eqb k k'); reflexivity.
  - destruct (String.eqb_spec k0 k) as [->|N]; cbn.
    + destruct (String.eqb k k'); reflexivity.
    + rewrite IH. destruct (String.eqb_spec k k') as [<-|N'].
      * apply String.eqb_neq in N. rewrite N. reflexivity.
      * reflexivity.
Qed.

Lemma js_get_set_prop (ps : list (string * jsval)) (k k' : string) (x : jsval) :
  js_get (JObj (set_prop ps k x)) k' = if String.eqb k k' then x else js_get (JObj ps) k'.
Proof.
  unfold js_get. rewrite find_set_prop. destruct (String.eqb k k'); reflexivity.
Qed.

Lemma fold_left_ext_acc {A B : Type} (f g : B -> A -> B) (l : list A) (b : B) :
  (forall b a, In a l -> f b a = g b a) -> fold_left f l b = fold_left g l b.
Proof.
  revert b. induction l as [|a l IH]; intros b E; cbn; [reflexivity|].
  rewrite E by (left; reflexivity). apply IH. intros; apply E; right; assumption.
Qed.

Lemma js_get_writes {A : Type} (w : A -> option (string * jsval)) (l : list A)
    (acc : list (string * jsval)) (k : string) :
  js_get (JObj (fold_left (write_step w) l acc)) k =
  match last_write w k l with Some x => x | None => js_get (JObj acc) k end.
Proof.
  revert acc. induction l as [|a l IH]; intros acc; cbn [fold_left last_write]; [reflexivity|].
  rewrite IH. destruct (last_write w k l); [reflexivity|].
  unfold write_step. destruct (w a) as [[k' x]|]; [|reflexivity].
  rewrite js_get_set_prop. destruct (String.eqb k' k); reflexivity.
Qed.

Lemma last_write_none {A : Type} (w : A -> option (string * jsval)) (k : string) (l : list A) :
  (forall a x, In a l -> w a <> Some (k, x)) -> last_write w k l = None.
Proof.
  induction l as [|a l IH]; intros H; cbn; [reflexivity|].
  rewrite IH by (intros; apply H; right; assumption).
  destruct (w a) as [[k' x]|] eqn:E; [|reflexivity].
  destruct (String.eqb_spec k' k) as [->|]; [|reflexivity].
  exfalso. eapply H; [left; reflexivity | exact E].
Qed.

Lemma last_write_nodup (k : string) (ps : list (string * jsval)) :
  NoDup (map fst ps) ->
  last_write Some k ps = match find (fun kv => String.eqb (fst kv) k) ps with
                         | Some (_, x) => Some x | None => None end.
Proof.
  induction ps as [|[k0 y] ps IH]; intros N; cbn; [reflexivity|].
  inversion N as [|? ? Nin N']; subst.
  destruct (String.eqb_spec k0 k) as [->|Nk].
  - rewrite last_write_none; [reflexivity|].
    intros a x Ha E. injection E as ->. apply Nin. apply in_map_iff.
    exists (k, x); split; [reflexivity | exact Ha].
  - rewrite IH by exact N'. destruct (find _ ps) as [[]|]; reflexivity.
Qed.


(** The last write of [k] along the indexed list [combine (seq s n) vs]:
    the write at position [idx], when no later position writes [k]. *)
Lemma last_write_indexed {A : Type} (w : nat * A -> option (string * jsval)) (k : string)
    (x : jsval) (d : A) : forall (vs : list A) (s idx : nat),
  (s <= idx < s + List.length vs)%nat ->
  w (idx, nth (idx - s) vs d) = Some (k, x) ->
  (forall j y, (idx < j < s + List.length vs)%nat -> w (j, nth (j - s) vs d) <> Some (k, y)) ->
  last_write w k (combine (seq s (List.length vs)) vs) = Some x.
Proof.
  induction vs as [|v vs IH]; intros s idx R Hw Hl; cbn [List.length combine seq] in *; [lia|].
  destruct (Nat.eq_dec idx s) as [->|Ne].
  - rewrite Nat.sub_diag in Hw. cbn [nth] in Hw. cbn [last_write].
    rewrite last_write_none; [rewrite Hw, String.eqb_refl; reflexivity|].
    intros [j y] z Hin E. pose proof (in_combine_l _ _ _ _ Hin) as Hj.
    apply in_seq in Hj.
    apply (Hl j z); [lia|].
    destruct (In_nth _ _ (0%nat, d) Hin) as [p [Hp Hnth]].
    rewrite combine_nth in Hnth by (rewrite length_seq; reflexivity).
    rewrite seq_nth in Hnth by (rewrite length_combine, length_seq in Hp; lia).
    injection Hnth as Ej Ey. subst j y. cbn [fst snd] in E.
    replace (S (s + p) - s)%nat with (S p) by lia. exact E.
  - cbn [last_write]. rewrite (IH (S s) idx); [reflexivity | lia | | ].
    + replace (idx - s)%nat with (S (idx - S s)) in Hw by lia. exact Hw.
    + intros j y Rj. specialize (Hl j y ltac:(lia)).
      replace (j - s)%nat with (S (j - S s)) in Hl by lia. exact Hl.
Qed.


Lemma find_writes {A : Type} (w : A -> option (string * jsval)) (l : list A)
    (acc : list (string * jsval)) (k : string) :
  find (fun kv => String.eqb (fst kv) k) (fold_left (write_step w) l acc) =
  match last_write w k l with
  | Some x => Some (k, x)
  | None => find (fun kv => String.eqb (fst kv) k) acc
  end.
Proof.
  revert acc. induction l as [|a l IH]; intros acc; cbn [fold_left last_write]; [reflexivity|].
  rewrite IH. destruct (last_write w k l); [reflexivity|].
  unfold write_step. destruct (w a) as [[k' x]|]; [|reflexivity].
  rewrite find_set_prop. destruct (String.eqb_spec k' k) as [->|]; reflexivity.
Qed.

Lemma set_prop_nodup (ps : list (string * jsval)) (k : string) (x : jsval) :
  NoDup (map fst ps) -> NoDup (map fst (set_prop ps k x)).
Proof.
  intros N. assert (Keys : map fst (set_prop ps k x) =
                           if existsb (fun kv => String.eqb (fst kv) k) ps
                           then map fst ps else map fst ps ++ [k]).
  { induction ps as [|[k0 y] ps IH]; cbn; [reflexivity|].
    destruct (String.eqb_spec k0 k) as [->|]; cbn; [reflexivity|].
    inversion N; subst. rewrite IH by assumption.
    destruct (existsb _ ps); reflexivity. }
  rewrite Keys. destruct (existsb (fun kv => String.eqb (fst kv) k) ps) eqn:E; [exact N|].
  apply NoDup_app; [exact N | repeat constructor; intros [] | ].
  intros z Hz [->|[]]. apply in_map_iff in Hz as [[k0 y] [Ek Hin]]. cbn in Ek. subst k0.
  assert (T : existsb (fun kv => String.eqb (fst kv) z) ps = true).
  { apply existsb_exists. exists (z, y). split; [exact Hin|]. apply String.eqb_refl. }
  congruence.
Qed.

Lemma writes_nodup {A : Type} (w : A -> option (string * jsval)) (l : list A)
    (acc : list (string * jsval)) :
  NoDup (map fst acc) -> NoDup (map fst (fold_left (write_step w) l acc)).
Proof.
  revert acc. induction l as [|a l IH]; intros acc N; cbn; [exact N|].
  apply IH. unfold write_step. destruct (w a) as [[k x]|]; [apply set_prop_nodup|]; exact N.
Qed.

Lemma spread_writes (acc : list (string * jsval)) (v : jsval) :
  spread acc v = fold_left (write_step Some) (entries v) acc.
Proof. unfold spread. apply fold_left_ext_acc. intros b [] _. reflexivity. Qed.

Lemma js_get_spread_obj (acc ps : list (string * jsval)) (k : string) :
  NoDup (map fst ps) ->
  js_get (JObj (spread acc (JObj ps))) k =
  match find (fun kv => String.eqb (fst kv) k) ps with
  | Some (_, x) => x
  | None => js_get (JObj acc) k
  end.
Proof.
  intros N. rewrite spread_writes, js_get_writes. cbn [entries].
  rewrite last_write_nodup by exact N. destruct (find _ ps) as [[]|]; reflexivity.
Qed.

Lemma nth_error_combine_seq {A : Type} (l : list A) : forall (s i : nat) (x : A),
  nth_error l i = Some x -> nth_error (combine (seq s (List.length l)) l) i = Some (s + i, x)%nat.
Proof.
  induction l as [|a l IH]; intros s i x E; [destruct i; discriminate|].
  destruct i as [|i]; cbn in E |- *.
  - injection E as ->. rewrite Nat.add_0_r. reflexivity.
  - rewrite (IH (S s) i x E). f_equal. f_equal. lia.
Qed.

Lemma length_combine_seq {A : Type} (s : nat) (l : list A) :
  List.length (combine (seq s (List.length l)) l) = List.length l.
Proof. rewrite length_combine, length_seq. lia. Qed.

End ObjectWrites.

Section RowFacts.
Context (h : Host).

Lemma put_member_step (ps : list (string * jsval)) (k : string) (x : jsval) :
  put_member ps k x =
  write_step (fun kx : string * jsval =>
                if String.eqb (fst kx) "__proto__" then None else Some kx) ps (k, x).
Proof. unfold put_member, write_step. cbn. destruct (String.eqb k "__proto__"); reflexivity. Qed.

Lemma join_extra_writes (valid : list jsval) (rightKeys : jsval) (i : nat) :
  join_extra h valid rightKeys i =
  fold_left (write_step (fun ia : nat * jsval =>
      let key := opt_get rightKeys (Z_to_decimal (Z.of_nat (fst ia))) in
      if truthy key && negb (String.eqb (js_string h key) "__proto__")
      then Some (js_string h key, nth i (array_elems (snd ia)) JUndefined) else None))
    (combine (seq 0 (List.length valid)) valid) [].
Proof.
  unfold join_extra. apply fold_left_ext_acc. intros ps [j v] _. cbn [fst snd].
  unfold write_step, put_member.
  destruct (truthy _); cbn; [|reflexivity].
  destruct (String.eqb _ "__proto__"); reflexivity.
Qed.

End RowFacts.

Section RowTheorems.
Context (h : Host).

Lemma array_elems_valid (a : jsval) :
  array_elems (if is_array a then a else JArr []) = array_elems a.
Proof. destruct a; reflexivity. Qed.

(** X1.  [t_join_on_index(left, rightArrays, rightKeys)] keeps one output row
    per row of [asRows(left)].  For a left row that is an object with distinct
    keys, a key that no truthy [rightKeys[idx]] (with [idx] a position of
    [rightArrays]) names keeps the left row's value, and a key named by such an
    [idx] (other than ["__proto__"]) takes [rightArrays[idx][i]] from the last
    [idx] that names it, a non-array giving [undefined]. *)
Theorem t_join_on_index_columns (left : jsval) (rightArrays : list jsval) (rightKeys : jsval)
    (i : nat) (ps : list (string * jsval))
    (Hrow : nth_error (asRows left) i = Some (JObj ps)) (Hnd : NoDup (map fst ps)) :
  let out := t_join_on_index h left rightArrays rightKeys in
  let key idx := opt_get rightKeys (Z_to_decimal (Z.of_nat idx)) in
  let writes idx k :=
    (idx < List.length rightArrays)%nat /\ truthy (key idx) = true /\ js_string h (key idx) = k in
  List.length out = List.length (asRows left) /\
  exists out_i, nth_error out i = Some out_i /\
  (forall k, (forall idx, ~ writes idx k) -> js_get out_i k = js_get (JObj ps) k) /\
  (forall idx k, writes idx k -> k <> "__proto__" -> (forall idx', (idx < idx')%nat -> ~ writes idx' k) ->
     js_get out_i k = nth i (array_elems (nth idx rightArrays JUndefined)) JUndefined).
Proof.
  cbv zeta. unfold t_join_on_index.
  set (valid := map (fun arr => if is_array arr then arr else JArr []) rightArrays).
  set (wj := fun ia : nat * jsval =>
      let key := opt_get rightKeys (Z_to_decimal (Z.of_nat (fst ia))) in
      if truthy key && negb (String.eqb (js_string h key) "__proto__")
      then Some (js_string h key, nth i (array_elems (snd ia)) JUndefined) else None).
  set (L := combine (seq 0 (List.length valid)) valid).
  split; [rewrite length_map, length_combine_seq; reflexivity|].
  rewrite nth_error_map, (nth_error_combine_seq _ 0 i _ Hrow). cbn [option_map fst snd].
  eexists; split; [reflexivity|].
  assert (Get : forall k, js_get (JObj (spread (spread [] (JObj ps))
                                  (JObj (join_extra h valid rightKeys i)))) k =
                          match last_write wj k L with
                          | Some x => x | None => js_get (JObj ps) k end).
  { intros k. rewrite join_extra_writes. fold wj L.
    rewrite js_get_spread_obj by (apply writes_nodup; constructor).
    rewrite find_writes. cbn [find].
    destruct (last_write wj k L); [reflexivity|].
    rewrite !spread_writes, js_get_writes. cbn [entries].
    rewrite last_write_nodup by exact Hnd. unfold js_get. destruct (find _ ps) as [[]|]; reflexivity. }
  assert (Lv : List.length valid = List.length rightArrays) by apply length_map.
  split.
  - intros k Hk. rewrite Get, last_write_none; [reflexivity|].
    intros [idx a] x Hin E. unfold L in Hin.
    pose proof (in_combine_l _ _ _ _ Hin) as Hi. apply in_seq in Hi.
    unfold wj in E. cbn [fst snd] in E.
    destruct (truthy _) eqn:T; [|discriminate]. destruct (String.eqb _ "__proto__"); [discriminate|].
    injection E as Ek _. apply (Hk idx). split; [lia|]. split; assumption.
  - intros idx k (Hi & T & Ek) Np Hlast. rewrite Get.
    assert (Nv : nth idx valid JUndefined = (if is_array (nth idx rightArrays JUndefined)
                                              then nth idx rightArrays JUndefined else JArr [])).
    { unfold valid. rewrite (nth_indep _ JUndefined (JArr [])) by (rewrite length_map; exact Hi).
      exact (map_nth (fun arr => if is_array arr then arr else JArr []) rightArrays JUndefined idx). }
    unfold L. rewrite (last_write_indexed wj k (nth i (array_elems (nth idx rightArrays JUndefined)) JUndefined) JUndefined valid 0 idx); [reflexivity | lia | |].
    + rewrite Nat.sub_0_r. unfold wj. cbn [fst snd]. rewrite T, Ek.
      destruct (String.eqb_spec k "__proto__") as [|_]; [contradiction|]. cbn.
      rewrite Nv, array_elems_valid. reflexivity.
    + intros j y Rj E. unfold wj in E. cbn [fst snd] in E.
      destruct (truthy (opt_get rightKeys (Z_to_decimal (Z.of_nat j)))) eqn:T'; cbn in E; [|discriminate].
      destruct (String.eqb (js_string h (opt_get rightKeys (Z_to_decimal (Z.of_nat j)))) "__proto__"); cbn in E; [discriminate|].
      injection E as Ek' _. apply (Hlast j); [lia|]. split; [lia|]. split; assumption.
Qed.

End RowTheorems.

Section RowTheorems2.
Context (h : Host).







End RowTheorems2.

Section MapFacts.

Lemma set_prop_fresh (ps : list (string * jsval)) (k : string) (x : jsval) :
  ~ In k (map fst ps) -> set_prop ps k x = (ps ++ [(k, x)])%list.
Proof.
  induction ps as [|[k0 y] ps IH]; intros N; cbn; [reflexivity|].
  cbn in N. destruct (String.eqb_spec k0 k); [tauto|].
  rewrite IH by tauto. reflexivity.
Qed.

Lemma fold_put_member (g : string * jsval -> jsval) : forall (ps acc : list (string * jsval)),
  NoDup (map fst ps) ->
  (forall k, In k (map fst ps) -> ~ In k (map fst acc)) ->
  fold_left (fun out kv => put_member out (fst kv) (g kv)) ps acc =
  (acc ++ map (fun kv => (fst kv, g kv))
              (filter (fun kv => negb (String.eqb (fst kv) "__proto__")) ps))%list.
Proof.
  induction ps as [|[k y] ps IH]; intros acc N D; cbn; [rewrite app_nil_r; reflexivity|].
  inversion N as [|? ? Nin N']; subst. unfold put_member at 2. cbn [fst snd].
  destruct (String.eqb k "__proto__"); cbn.
  - apply IH; [exact N'|]. intros k' Hk'. apply D. right. exact Hk'.
  - rewrite set_prop_fresh by (apply D; left; reflexivity).
    rewrite IH; [rewrite <- app_assoc; reflexivity | exact N'|].
    intros k' Hk'. rewrite map_app, in_app_iff. cbn. intros [H|[H|[]]].
    + apply (D k'); [right; exact Hk' | exact H].
    + subst k'. contradiction.
Qed.

(** X4.  [applyMap(json, map)] returns [json] unchanged when [map] is not a
    plain object; for an object [map] with distinct keys it returns an object
    with one member per key of [map] other than ["__proto__"], in the same
    order, holding the JSONPath result, or [null] when the query gives
    [undefined] or throws. *)
Theorem applyMap_members (query : jsval -> jsval -> option jsval) (json : jsval)
    (ps : list (string * jsval)) (Hnd : NoDup (map fst ps)) :
  (forall map, isObj map = false -> applyMap query json map = json) /\
  applyMap query json (JObj ps) =
  JObj (map (fun kv => (fst kv, match query (snd kv) json with
                                | Some JUndefined | None => JNull
                                | Some result => result
                                end))
            (filter (fun kv => negb (String.eqb (fst kv) "__proto__")) ps)).
Proof.
  split.
  - intros m Hm. unfold applyMap. rewrite Hm, orb_true_r. reflexivity.
  - unfold applyMap. cbn [truthy isObj negb orb entries]. f_equal.
    apply (fold_put_member (fun kv => match query (snd kv) json with
                                      | Some JUndefined | None => JNull
                                      | Some result => result
                                      end)); [exact Hnd|].
    intros k _ [].
Qed.

End MapFacts.

Section EngineCounts.
Local Open Scope list_scope.

Lemma exec_node_log (env : Env) (c o : jsval) (i : nat) (node : jsval) (st : RunState) :
  let st' := exec_node env c o i node st in
  exists t e, terminal t /\
    rs_status st' = set_nth (set_nth (rs_status st) i "running") i t /\
    rs_log st' = rs_log st ++ [e] /\
    log_node e = js_get node "id" /\ log_ok e = String.eqb t "completed" /\
    rs_apiCalls st' = (rs_apiCalls st + if is_http node then 1 else 0)%nat.
Proof.
  cbv zeta. unfold exec_node.
  assert (Calls : forall outs, fst (fst (node_body env c o outs node)) =
                               if is_http node then 1%nat else 0%nat).
  { intros outs. unfold node_body, is_http.
    destruct (is_str (js_get node "type") "http").
    - destruct (truthy _); [destruct (fanout_run _ _ _ _) as [[? ?] ?]|]; reflexivity.
    - destruct (is_str (js_get node "type") "transform"); reflexivity. }
  specialize (Calls (rs_outputs st)).
  destruct (node_body env c o (rs_outputs st) node) as [[calls errs] res].
  cbn [fst] in Calls. subst calls.
  destruct res as [d a fb | m]; cbn [rs_status rs_log rs_apiCalls].
  - eexists "completed", _. split; [left; reflexivity|]. repeat split.
  - eexists "failed", _. split; [right; reflexivity|]. repeat split.
Qed.

Lemma run_nodes_log (env : Env) (c o : jsval) : forall nodes done st,
  rs_status st = done ++ repeat "pending" (List.length nodes) ->
  map log_ok (rs_log st) = map (fun t => String.eqb t "completed") done ->
  let st' := run_nodes env c o (List.length done) nodes st in
  exists terms, List.length terms = List.length nodes /\
    rs_status st' = done ++ terms /\
    map log_ok (rs_log st') = map (fun t => String.eqb t "completed") (done ++ terms) /\
    map log_node (rs_log st') = map log_node (rs_log st) ++ map (fun n => js_get n "id") nodes /\
    rs_apiCalls st' = (rs_apiCalls st + List.length (filter is_http nodes))%nat.
Proof.
  induction nodes as [|node nodes IH]; intros done st Hs Hl.
  - exists []. cbn in *. rewrite !app_nil_r in *. split; [reflexivity|]. split; [exact Hs|]. split; [exact Hl|]. split; [reflexivity|lia].
  - destruct (exec_node_log env c o (List.length done) node st)
      as (t & e & Ht & Hst & Hlog & Hid & Hok & Hcalls).
    set (st1 := exec_node env c o (List.length done) node st) in *.
    assert (Hs1 : rs_status st1 = (done ++ [t]) ++ repeat "pending" (List.length nodes)).
    { rewrite Hst, Hs. cbn [List.length repeat].
      rewrite !set_nth_app, <- app_assoc. reflexivity. }
    assert (Hl1 : map log_ok (rs_log st1) = map (fun t => String.eqb t "completed") (done ++ [t])).
    { rewrite Hlog, !map_app, Hl. cbn. rewrite Hok. reflexivity. }
    destruct (IH (done ++ [t]) st1 Hs1 Hl1) as (terms & Hlen & Hst' & Hok' & Hid' & Hc').
    replace (List.length (done ++ [t])) with (S (List.length done)) in *
      by (rewrite length_app; cbn; lia).
    exists (t :: terms). cbn [List.length run_nodes]. fold st1.
    split; [rewrite Hlen; reflexivity|].
    split; [rewrite Hst', <- app_assoc; reflexivity|].
    split; [rewrite Hok', <- app_assoc; reflexivity|].
    split.
    + rewrite Hid', Hlog, map_app, <- app_assoc. cbn. rewrite Hid. reflexivity.
    + rewrite Hc', Hcalls. cbn [filter]. destruct (is_http node); cbn [List.length]; lia.
Qed.

End EngineCounts.

Section EngineCounts2.
Local Open Scope list_scope.

(** X5.  For a spec whose [nodes] and [edges] are arrays, [executePipeline]
    finishes with one [runLog] entry per node, in node order, whose [node_id]
    is the node's [id] and whose status is [ok] exactly for the nodes that end
    [completed]; [metrics.apiCalls] is the number of nodes of type [http]. *)
Theorem executePipeline_runLog (env : Env) (spec ctx : jsval) (nodes : list jsval)
    (Hn : js_get spec "nodes" = JArr nodes) (He : is_array (js_get spec "edges") = true) :
  exists st, executePipeline env spec ctx = RunOk st /\
    map log_node (rs_log st) = map (fun n => js_get n "id") nodes /\
    map log_ok (rs_log st) = map (fun t => String.eqb t "completed") (rs_status st) /\
    rs_apiCalls st = List.length (filter is_http nodes).
Proof.
  rewrite (executePipeline_run env spec ctx nodes Hn He). eexists; split; [reflexivity|].
  destruct (run_nodes_log env (js_or (js_get ctx "context") (JObj [])) (js_get spec "_origin")
              nodes [] (init_state (List.length nodes)) eq_refl eq_refl)
    as (terms & _ & Hst & Hok & Hid & Hc).
  cbn [List.length] in *. rewrite Hst. split; [exact Hid|]. split; [exact Hok|]. exact Hc.
Qed.

(** X6.  A node whose [type] is neither [http] nor [transform] completes:
    its status becomes [completed], no error is recorded, an [ok] log entry
    with one attempt and no fallback is appended and [apiCalls] is
    unchanged; when its id is not ["__proto__"], [outputs[node.id]] becomes
    [null]. *)
Theorem exec_node_other_type (env : Env) (c o : jsval) (i : nat) (node : jsval) (st : RunState)
    (Hh : is_str (js_get node "type") "http" = false)
    (Ht : is_str (js_get node "type") "transform" = false) :
  let st' := exec_node env c o i node st in
  let id := js_get node "id" in
  rs_status st' = set_nth (rs_status st) i "completed" /\
  (js_string (env_host env) id <> "__proto__" ->
   rs_outputs st' = set_prop (rs_outputs st) (js_string (env_host env) id) JNull) /\
  rs_errors st' = rs_errors st /\
  rs_log st' = rs_log st ++ [LogOk id 1 false] /\
  rs_apiCalls st' = rs_apiCalls st.
Proof.
  cbv zeta. unfold exec_node, node_body. rewrite Hh, Ht. cbn.
  repeat split; try apply app_nil_r; try lia.
  - revert i. induction (rs_status st) as [|x l IH]; intros [|i]; cbn; try reflexivity.
    rewrite IH. reflexivity.
  - intros Hp. unfold put_member. apply String.eqb_neq in Hp. rewrite Hp. reflexivity.
Qed.

End EngineCounts2.

Section StoreAndTemplates.

Lemma split_on_nodot (s : string) :
  all_chars (fun c => negb (c =? ".")%char) s = true -> split_on "." s = [s].
Proof.
  induction s as [|c s IH]; cbn; intros E; [reflexivity|].
  apply andb_prop in E as [E1 E2]. apply negb_true_iff in E1. rewrite E1, (IH E2). reflexivity.
Qed.

(** X7.  After a node's body succeeds with [d], [outputs[node.id] = d]: the
    path ["outputs.<id>"] resolves to [d] in the next nodes' scope, for an id
    without a dot. *)
Theorem exec_node_output_visible (env : Env) (c o : jsval) (i : nat) (node : jsval)
    (st : RunState) (calls : nat) (errs : list (jsval * string)) (d : jsval) (a : float)
    (fb : bool)
    (Hbody : node_body env c o (rs_outputs st) node = (calls, errs, BodyOk d a fb))
    (Hdot : all_chars (fun ch => negb (ch =? ".")%char)
              (js_string (env_host env) (js_get node "id")) = true)
    (Hproto : js_string (env_host env) (js_get node "id") <> "__proto__") :
  resolvePathLike (env_host env)
    (JObj [("outputs", JObj (rs_outputs (exec_node env c o i node st)))])
    ("outputs." ++ js_string (env_host env) (js_get node "id")) = d.
Proof.
  unfold exec_node. rewrite Hbody. cbn [rs_outputs].
  set (s := js_string (env_host env) (js_get node "id")) in *.
  unfold resolvePathLike. cbn [starts_with strip_prefix String.append Ascii.eqb Bool.eqb andb orb].
  replace (split_on "." ("outputs." ++ s)) with ["outputs"; s]
    by (cbn; rewrite split_on_nodot by exact Hdot; reflexivity).
  cbn [walk_path is_nullish js_get find fst String.eqb Ascii.eqb Bool.eqb andb].
  cbn. rewrite split_on_nodot by exact Hdot. cbn [walk_path is_nullish].
  pose proof (js_get_set_prop (rs_outputs st) s s d) as E.
  rewrite String.eqb_refl in E. unfold put_member.
  rewrite (proj2 (String.eqb_neq s "__proto__") Hproto). exact E.
Qed.

(** X8.  [interpolate] leaves a string with no [{{] in it unchanged. *)
Theorem interpolate_no_placeholder (h : Host) (scope : jsval) (s : string)
    (Hs : forall a b, s <> (a ++ "{{" ++ b)%string) :
  interpolate h s scope = Some s.
Proof.
  unfold interpolate. generalize (S (String.length s)) as fuel. intros fuel.
  revert s Hs. induction fuel as [|fuel IH]; intros s Hs; cbn; [reflexivity|].
  destruct s as [|c r]; [reflexivity|].
  assert (P : placeholder_at (String c r) = None).
  { destruct (Ascii.eqb_spec c "{") as [->|Nc].
    - destruct r as [|c' r]; [reflexivity|].
      destruct (Ascii.eqb_spec c' "{") as [->|Nc'].
      + exfalso. apply (Hs "" r). reflexivity.
      + cbn. destruct c' as [[] [] [] [] [] [] [] []]; try reflexivity; contradiction Nc'; reflexivity.
    - cbn. destruct c as [[] [] [] [] [] [] [] []]; try reflexivity; contradiction Nc; reflexivity. }
  rewrite P, IH; [reflexivity|].
  intros a b E. apply (Hs (String c a) b). rewrite E. reflexivity.
Qed.

(** X9.  A template that is exactly [{{p}}], for a non-empty path [p] with
    no white space, comma, [)] or [}] that is not a [join_coords(] call, is
    replaced by [String(resolvePathLike(scope, p))], or by the empty string when
    that value is [null] or [undefined]. *)
Theorem interpolate_single_path (h : Host) (scope : jsval) (p : string)
    (Hp : path_string p = true) (Hj : starts_with "join_coords(" p = false) :
  interpolate h ("{{" ++ p ++ "}}") scope =
  Some (let v := resolvePathLike h scope p in if is_nullish v then "" else js_string h v).
Proof.
  unfold interpolate. rewrite (replace_single _ _ _ p).
  - unfold interpolate_code. rewrite trim_nonws by (apply nonws_path; exact Hp).
    unfold match_join. unfold starts_with in Hj.
    destruct (strip_prefix "join_coords(" p); [discriminate|]. reflexivity.
  - cbn [String.length String.append]. lia.
  - cbn [String.append placeholder_at span Ascii.eqb Bool.eqb andb negb].
    rewrite span_all_app by (apply path_no_close; exact Hp).
    cbn [String.append span Ascii.eqb Bool.eqb andb negb].
    assert (Ne : is_empty (p ++ "") = false).
    { rewrite str_app_nil_r. apply andb_prop in Hp as [E _]. apply negb_true_iff, E. }
    rewrite Ne, str_app_nil_r. reflexivity.
Qed.

End StoreAndTemplates.

Section Columns.
Local Open Scope list_scope.

Lemma fold_min_spec {A : Type} (f : A -> nat) : forall (l : list A) (m : nat),
  let r := fold_left (fun m a => Nat.min m (f a)) l m in
  (r <= m)%nat /\ (forall a, In a l -> (r <= f a)%nat) /\ (r = m \/ exists a, In a l /\ r = f a).
Proof.
  induction l as [|a l IH]; intros m; cbn zeta; cbn [fold_left].
  - split; [lia|]. split; [intros _ []|]. left; reflexivity.
  - destruct (IH (Nat.min m (f a))) as (R1 & R2 & R3).
    split; [lia|]. split.
    + intros b [<-|Hb]; [lia|]. apply R2, Hb.
    + destruct R3 as [E|(b & Hb & E)].
      * destruct (Nat.min_spec m (f a)) as [[_ M]|[_ M]];
          [left; rewrite E; exact M
          | right; exists a; split; [left; reflexivity | rewrite E; exact M]].
      * right. exists b. split; [right; exact Hb | exact E].
Qed.

Lemma find_columnar (ps : list (string * jsval)) (i : nat) (k : string) :
  NoDup (map fst ps) -> k <> "__proto__" ->
  js_get (columnar_row ps i) k = nth i (array_elems (js_get (JObj ps) k)) JUndefined.
Proof.
  intros Hnd Hk. unfold columnar_row.
  rewrite (fold_put_member (fun kv => match snd kv with
                                      | JArr l => nth i l JUndefined
                                      | _ => JUndefined
                                      end) ps [] Hnd (fun _ _ H => H)).
  cbn [app js_get]. clear Hnd.
  induction ps as [|[k0 v] ps IH]; [destruct i; reflexivity|].
  destruct (String.eqb_spec k0 "__proto__") as [->|N].
  - cbn [filter fst]. rewrite String.eqb_refl. cbn [negb find fst].
    replace (String.eqb "__proto__" k) with false
      by (symmetry; apply String.eqb_neq; congruence).
    exact IH.
  - cbn [filter fst]. rewrite (proj2 (String.eqb_neq k0 "__proto__") N).
    cbn [negb map find fst snd].
    destruct (String.eqb k0 k); [|exact IH].
    destruct v; destruct i; reflexivity.
Qed.

Lemma nth_map_seq (f : nat -> jsval) (n i : nat) :
  (i < n)%nat -> nth i (map f (seq 0 n)) JUndefined = f i.
Proof.
  intros Hi. rewrite (nth_indep _ JUndefined (f 0%nat)) by (rewrite length_map, length_seq; exact Hi).
  rewrite map_nth, seq_nth by exact Hi. reflexivity.
Qed.

(** X10.  [asRows] on a non-empty object (distinct keys) whose members are
    all arrays gives as many rows as its shortest column, and row [i] maps
    every key [k] other than ["__proto__"] to [input[k][i]]. *)
Theorem asRows_columnar (ps : list (string * jsval)) (Hne : ps <> [])
    (Hnd : NoDup (map fst ps))
    (Harr : Forall (fun kv => is_array (snd kv) = true) ps) :
  let rows := asRows (JObj ps) in
  (forall kv, In kv ps -> (List.length rows <= column_length (snd kv))%nat) /\
  (exists kv, In kv ps /\ List.length rows = column_length (snd kv)) /\
  (forall i k, (i < List.length rows)%nat -> k <> "__proto__" ->
     js_get (nth i rows JUndefined) k = nth i (array_elems (js_get (JObj ps) k)) JUndefined).
Proof.
  cbv zeta. unfold asRows.
  assert (Fa : forallb (fun kv => is_array (snd kv)) ps = true).
  { apply forallb_forall. intros kv Hkv. rewrite Forall_forall in Harr. apply Harr, Hkv. }
  rewrite Fa. destruct ps as [|[k0 first] rest] eqn:Eps; [contradiction|]. rewrite <- Eps in Hnd |- *.
  set (len := column_length first).
  assert (Rows : forall n, (forall i k, (i < n)%nat -> k <> "__proto__" ->
            js_get (nth i (map (columnar_row ps) (seq 0 n)) JUndefined) k =
            nth i (array_elems (js_get (JObj ps) k)) JUndefined)).
  { intros n i k Hi Hk.
    rewrite nth_map_seq by exact Hi. apply find_columnar; assumption. }
  destruct (forallb (fun kv => Nat.eqb (column_length (snd kv)) len) ps) eqn:Eq.
  - rewrite length_map, length_seq. split; [|split; [|apply Rows]].
    + intros kv Hkv. rewrite forallb_forall in Eq. specialize (Eq kv Hkv).
      apply Nat.eqb_eq in Eq. lia.
    + exists (k0, first). split; [rewrite Eps; left; reflexivity | reflexivity].
  - rewrite length_map, length_seq.
    destruct (fold_min_spec (fun kv => column_length (snd kv)) ps len) as (R1 & R2 & R3).
    split; [exact R2|]. split; [|apply Rows].
    destruct R3 as [E|E]; [|exact E].
    exists (k0, first). split; [rewrite Eps; left; reflexivity | exact E].
Qed.

End Columns.

Section RankingAsc.
Local Open Scope list_scope.




End RankingAsc.

(** ** Examples of the further properties *)

Lemma t_join_on_index_columns_witness :
  nth_error (asRows join_left) 1 = Some (JObj [("a", JNum 2)]) /\ NoDup (map fst [("a", JNum 2)]) /\
  (let out := t_join_on_index host0 join_left join_right join_keys in
   let key idx := opt_get join_keys (Z_to_decimal (Z.of_nat idx)) in
   let writes idx k :=
     (idx < List.length join_right)%nat /\ truthy (key idx) = true /\ js_string host0 (key idx) = k in
   List.length out = List.length (asRows join_left) /\
   exists out_i, nth_error out 1 = Some out_i /\
   (forall k, (forall idx, ~ writes idx k) -> js_get out_i k = js_get (JObj [("a", JNum 2)]) k) /\
   (forall idx k, writes idx k -> k <> "__proto__" -> (forall idx', (idx < idx')%nat -> ~ writes idx' k) ->
      js_get out_i k = nth 1 (array_elems (nth idx join_right JUndefined)) JUndefined)).
Proof.
  assert (N : NoDup (map fst [("a", JNum 2)])) by (repeat constructor; intros []).
  split; [reflexivity|]. split; [exact N|].
  exact (t_join_on_index_columns host0 join_left join_right join_keys 1 _ eq_refl N).
Defined.



Lemma applyMap_members_witness :
  NoDup (map fst [("name", JStr "n"); ("__proto__", JStr "p"); ("miss", JStr "$.bad")]) /\
  ((forall map, isObj map = false -> applyMap map_query (JObj [("n", JStr "v")]) map =
                                    JObj [("n", JStr "v")]) /\
   applyMap map_query (JObj [("n", JStr "v")])
     (JObj [("name", JStr "n"); ("__proto__", JStr "p"); ("miss", JStr "$.bad")]) =
   JObj (map (fun kv => (fst kv, match map_query (snd kv) (JObj [("n", JStr "v")]) with
                                 | Some JUndefined | None => JNull
                                 | Some result => result
                                 end))
             (filter (fun kv => negb (String.eqb (fst kv) "__proto__"))
                [("name", JStr "n"); ("__proto__", JStr "p"); ("miss", JStr "$.bad")]))).
Proof.
  assert (N : NoDup (map fst [("name", JStr "n"); ("__proto__", JStr "p");
                              ("miss", JStr "$.bad")]))
    by (repeat constructor; cbn; intuition discriminate).
  split; [exact N|].
  exact (applyMap_members map_query (JObj [("n", JStr "v")]) _ N).
Defined.

Lemma executePipeline_runLog_witness :
  js_get spec_mixed "nodes" = JArr mixed_nodes /\ is_array (js_get spec_mixed "edges") = true /\
  exists st, executePipeline env_fail spec_mixed (JObj []) = RunOk st /\
    map log_node (rs_log st) = map (fun n => js_get n "id") mixed_nodes /\
    map log_ok (rs_log st) = map (fun t => String.eqb t "completed") (rs_status st) /\
    rs_apiCalls st = List.length (filter is_http mixed_nodes).
Proof.
  split; [reflexivity|]. split; [reflexivity|].
  exact (executePipeline_runLog env_fail spec_mixed (JObj []) mixed_nodes eq_refl eq_refl).
Defined.

Lemma exec_node_other_type_witness :
  is_str (js_get note_node "type") "http" = false /\
  is_str (js_get note_node "type") "transform" = false /\
  (let st' := exec_node env_fail (JObj []) JNull 2 note_node (init_state 3) in
   let id := js_get note_node "id" in
   rs_status st' = set_nth (rs_status (init_state 3)) 2 "completed" /\
   (js_string (env_host env_fail) id <> "__proto__" ->
    rs_outputs st' = set_prop (rs_outputs (init_state 3)) (js_string (env_host env_fail) id) JNull) /\
   rs_errors st' = rs_errors (init_state 3) /\
   (rs_log st' = rs_log (init_state 3) ++ [LogOk id 1 false])%list /\
   rs_apiCalls st' = rs_apiCalls (init_state 3)).
Proof.
  split; [reflexivity|]. split; [reflexivity|].
  exact (exec_node_other_type env_fail (JObj []) JNull 2 note_node (init_state 3) eq_refl eq_refl).
Defined.

Lemma exec_node_output_visible_witness :
  node_body env_fail (JObj []) JNull (rs_outputs state_after_n1) transform_node =
    (0%nat, [], BodyOk (JStr "a") 1 false) /\
  all_chars (fun ch => negb (ch =? ".")%char)
    (js_string (env_host env_fail) (js_get transform_node "id")) = true /\
  js_string (env_host env_fail) (js_get transform_node "id") <> "__proto__" /\
  resolvePathLike (env_host env_fail)
    (JObj [("outputs", JObj (rs_outputs (exec_node env_fail (JObj []) JNull 1 transform_node
                                                    state_after_n1)))])
    ("outputs." ++ js_string (env_host env_fail) (js_get transform_node "id")) = JStr "a".
Proof.
  assert (B : node_body env_fail (JObj []) JNull (rs_outputs state_after_n1) transform_node =
                (0%nat, [], BodyOk (JStr "a") 1 false)) by (vm_compute; reflexivity).
  assert (P : js_string (env_host env_fail) (js_get transform_node "id") <> "__proto__")
    by (vm_compute; discriminate).
  split; [exact B|]. split; [reflexivity|]. split; [exact P|].
  exact (exec_node_output_visible env_fail (JObj []) JNull 1 transform_node state_after_n1
           0 [] (JStr "a") 1 false B eq_refl P).
Defined.

Lemma interpolate_no_placeholder_witness :
  (forall a b, "{x}" <> (a ++ "{{" ++ b)%string) /\
  interpolate host0 "{x}" (JObj []) = Some "{x}".
Proof.
  assert (H : forall a b, "{x}" <> (a ++ "{{" ++ b)%string).
  { intros a b E. destruct a as [|c1 [|c2 [|c3 [|c4 a]]]]; cbn in E; inversion E. }
  split; [exact H|].
  exact (interpolate_no_placeholder host0 (JObj []) "{x}" H).
Defined.

Lemma interpolate_single_path_witness :
  path_string "outputs.n1.name" = true /\ starts_with "join_coords(" "outputs.n1.name" = false /\
  interpolate host0 ("{{" ++ "outputs.n1.name" ++ "}}") tmpl_scope =
  Some (let v := resolvePathLike host0 tmpl_scope "outputs.n1.name" in
        if is_nullish v then "" else js_string host0 v).
Proof.
  split; [reflexivity|]. split; [reflexivity|].
  exact (interpolate_single_path host0 tmpl_scope "outputs.n1.name" eq_refl eq_refl).
Defined.

Lemma asRows_columnar_witness :
  sample_columns <> [] /\ NoDup (map fst sample_columns) /\
  Forall (fun kv => is_array (snd kv) = true) sample_columns /\
  (let rows := asRows (JObj sample_columns) in
   (forall kv, In kv sample_columns -> (List.length rows <= column_length (snd kv))%nat) /\
   (exists kv, In kv sample_columns /\ List.length rows = column_length (snd kv)) /\
   (forall i k, (i < List.length rows)%nat -> k <> "__proto__" ->
      js_get (nth i rows JUndefined) k = nth i (array_elems (js_get (JObj sample_columns) k)) JUndefined)).
Proof.
  assert (Ne : sample_columns <> []) by discriminate.
  assert (N : NoDup (map fst sample_columns))
    by (repeat constructor; cbn; intuition discriminate).
  assert (A : Forall (fun kv => is_array (snd kv) = true) sample_columns) by (repeat constructor).
  split; [exact Ne|]. split; [exact N|]. split; [exact A|].
  exact (asRows_columnar sample_columns Ne N A).
Defined.


